(** * Fixed-window rate limiter: [src/middleware/rateLimiter.ts]

    A shallow embedding of the Express rate-limiter middleware and of its
    administration functions, followed by the properties its design
    document states about it.

    Conventions of the embedding.

    - JavaScript numbers are modelled as [Z]: timestamps are the integer
      milliseconds of [Date.now()], counts, limits and window lengths
      (also those of a custom config) are integers, and arithmetic on them
      is exact.  The only other value the module produces itself is the
      [NaN] of [parseInt], modelled as [None].
    - The module-level [rateLimitStore] (a [Map<string, UserRateLimit>]) is
      a [gmap string UserRateLimit] threaded through every function that
      touches it.  The objects held by the map are never shared between two
      keys, so [userData.count++] on the object stored under a key is the
      re-insertion of the updated record under that key.
    - Every [Date.now()] call of the source is a separate argument, so a
      request that straddles a clock tick can be expressed; [check] is the
      request served within a single tick. *)

From Stdlib Require Import ZArith Lia Ascii String.
From stdpp Require Import base option gmap strings fin_maps pretty.

Local Open Scope string_scope.
Local Open Scope Z_scope.

(** ** Constants ([src/utils/constants.ts]) *)

Definition DEFAULT_RATE_LIMIT : Z := 5.
Definition DEFAULT_RATE_WINDOW_SEC : Z := 60.

(** ** Data model *)

(** [interface RateLimitConfig] *)
Record RateLimitConfig : Type := mkConfig {
  limit : Z;
  windowSec : Z
}.

(** [Partial<RateLimitConfig>]: each field may be left out ([None]); a
    field that is present holds a number.  A property present with the
    value [undefined] is not represented, so nothing is stated below about
    the config of a middleware built from such an object. *)
Record PartialRateLimitConfig : Type := mkPartial {
  limit_opt : option Z;
  windowSec_opt : option Z
}.

(** [interface UserRateLimit] *)
Record UserRateLimit : Type := mkUser {
  count : Z;
  resetTime : Z
}.

(** [type RateLimitStore = Map<string, UserRateLimit>] *)
Abbreviation RateLimitStore := (gmap string UserRateLimit).

(** The two variables [getConfig] reads from [process.env]; [None] is an
    unset variable ([undefined]). *)
Record ProcessEnv : Type := mkEnv {
  RATE_LIMIT : option string;
  RATE_WINDOW_SEC : option string
}.

(** ** [parseInt(s, 10)] *)

Module JS.

(** The ASCII part of the white space [parseInt] skips: TAB, LF, VT, FF,
    CR and SPACE.  Strings are sequences of ASCII characters here; the
    white space outside ASCII that [parseInt] also skips is not
    represented. *)
Definition is_white_space (c : ascii) : bool :=
  let n := nat_of_ascii c in
  ((9 <=? n)%nat && (n <=? 13)%nat) || (n =? 32)%nat.

Fixpoint trim_start (s : string) : string :=
  match s with
  | String c rest => if is_white_space c then trim_start rest else s
  | EmptyString => s
  end.

Definition digit_value (c : ascii) : option Z :=
  let n := nat_of_ascii c in
  if ((48 <=? n)%nat && (n <=? 57)%nat)%bool
  then Some (Z.of_nat n - 48) else None.

(** Value of the longest prefix of decimal digits; [acc] is [None] until
    a first digit has been read. *)
Fixpoint digits (acc : option Z) (s : string) : option Z :=
  match s with
  | String c rest =>
      match digit_value c with
      | Some d => digits (Some (10 * default 0 acc + d)) rest
      | None => acc
      end
  | EmptyString => acc
  end.

(** [parseInt(s, 10)]; [None] is [NaN]. *)
Definition parseInt (s : string) : option Z :=
  match trim_start s with
  | String "-" rest => Z.opp <$> digits None rest
  | String "+" rest => digits None rest
  | t => digits None t
  end.

(** [Math.ceil(a / b)] for integers [a] and [b > 0]. *)
Definition ceil_div (a b : Z) : Z := - ((- a) / b).

End JS.

(** ** Configuration *)

(** [??]: the right operand replaces [undefined]. *)
Definition nullish (o : option string) (dflt : string) : string :=
  default dflt o.

(** A JavaScript call either returns or throws [new Error(message)]. *)
Inductive Completion (A : Type) : Type :=
| Return (a : A)
| Throw (message : string).
Arguments Return {A} a.
Arguments Throw {A} message.

(** [getConfig].  Both variables are parsed before either is validated.
    [limit <= 0 || isNaN(limit)] is the [None] case ([NaN <= 0] is false,
    [isNaN] is true) together with the test on the number. *)
Definition getConfig (env : ProcessEnv) : Completion RateLimitConfig :=
  let limit := JS.parseInt (nullish (RATE_LIMIT env) "5") in
  let windowSec := JS.parseInt (nullish (RATE_WINDOW_SEC env) "60") in
  match limit with
  | None => Throw "RATE_LIMIT must be a positive number"
  | Some limit =>
      if limit <=? 0 then Throw "RATE_LIMIT must be a positive number"
      else
        match windowSec with
        | None => Throw "RATE_WINDOW_SEC must be a positive number"
        | Some windowSec =>
            if windowSec <=? 0
            then Throw "RATE_WINDOW_SEC must be a positive number"
            else Return {| limit := limit; windowSec := windowSec |}
        end
  end.

(** [{ ...baseConfig, ...customConfig }] *)
Definition spread (baseConfig : RateLimitConfig)
    (customConfig : option PartialRateLimitConfig) : RateLimitConfig :=
  match customConfig with
  | None => baseConfig
  | Some c =>
      {| limit := default (limit baseConfig) (limit_opt c);
         windowSec := default (windowSec baseConfig) (windowSec_opt c) |}
  end.

(** ** The store and the request path *)

(** [now > data.resetTime], the one expiry test of the module. *)
Definition expired (now : Z) (data : UserRateLimit) : bool :=
  now >? resetTime data.

(** [cleanupExpiredEntries]; [now] is its [Date.now()]. *)
Definition cleanupExpiredEntries (now : Z) (store : RateLimitStore)
    : RateLimitStore :=
  filter (λ entry, expired now entry.2 = false) store.

(** Result of [getUserRateLimitData]. *)
Record RateLimitData : Type := mkData {
  remaining : Z;
  resetIn : Z
}.

(** [getUserRateLimitData]; [now] is its [Date.now()]. *)
Definition getUserRateLimitData (now : Z) (userId : string)
    (config : RateLimitConfig) (store : RateLimitStore) : RateLimitData :=
  match store !! userId with
  | None => {| remaining := limit config; resetIn := windowSec config |}
  | Some userData =>
      if expired now userData then
        {| remaining := limit config; resetIn := windowSec config |}
      else
        {| remaining := Z.max 0 (limit config - count userData);
           resetIn := JS.ceil_div (resetTime userData - now) 1000 |}
  end.

(** The body of the 429 reply. *)
Record ErrorBody : Type := mkBody {
  error : string;
  message : string
}.

(** How the middleware ends: [next()], or [res.status(429).json(body)]. *)
Inductive Outcome : Type :=
| Next
| Status429 (body : ErrorBody).

(** What the middleware leaves on the response: the three headers (as
    numbers, before [toString]) and the way it ended. *)
Record Response : Type := mkResponse {
  X_RateLimit_Limit : Z;
  X_RateLimit_Remaining : Z;
  X_RateLimit_Reset : Z;
  outcome : Outcome
}.

(** The request went on to the next handler. *)
Definition admitted (res : Response) : bool :=
  match outcome res with
  | Next => true
  | Status429 _ => false
  end.

(** The three [Date.now()] readings of one request, in program order. *)
Record Clock : Type := mkClock {
  at_cleanup : Z;
  at_request : Z;
  at_headers : Z
}.

(** The closure returned by [createRateLimiterMiddleware], for the user id
    that [getUserId] resolved.  No step of the body throws in this model
    ([setHeader] is a record update), so the [catch] branch is not
    represented. *)
Definition middleware (config : RateLimitConfig) (userId : string)
    (clock : Clock) (store : RateLimitStore) : Response * RateLimitStore :=
  let store := cleanupExpiredEntries (at_cleanup clock) store in
  let now := at_request clock in
  let fresh := {| count := 0; resetTime := now + windowSec config * 1000 |} in
  let userData :=
    match store !! userId with
    | None => fresh
    | Some userData => if expired now userData then fresh else userData
    end in
  let userData :=
    {| count := count userData + 1; resetTime := resetTime userData |} in
  let store := <[userId := userData]> store in
  let data := getUserRateLimitData (at_headers clock) userId config store in
  let res := fun o =>
    {| X_RateLimit_Limit := limit config;
       X_RateLimit_Remaining := Z.max 0 (remaining data);
       X_RateLimit_Reset := resetIn data;
       outcome := o |} in
  if count userData >? limit config then
    (res (Status429
            {| error := "rate_limited";
               message := "Too many requests, please try again later." |}),
     store)
  else
    (res Next, store).

(** A middleware instance: a function of the request and of the store. *)
Abbreviation Middleware :=
  (string -> Clock -> RateLimitStore -> Response * RateLimitStore).

(** [createRateLimiterMiddleware] *)
Definition createRateLimiterMiddleware (env : ProcessEnv)
    (customConfig : option PartialRateLimitConfig) : Completion Middleware :=
  match getConfig env with
  | Throw msg => Throw msg
  | Return baseConfig => Return (middleware (spread baseConfig customConfig))
  end.

(** ** Administration *)

Record RateLimitStats : Type := mkStats {
  activeUsers : nat;
  totalEntries : nat
}.

(** [getRateLimitStats]; [now] is the [Date.now()] of its cleanup. *)
Definition getRateLimitStats (now : Z) (store : RateLimitStore)
    : RateLimitStats * RateLimitStore :=
  let store := cleanupExpiredEntries now store in
  ({| activeUsers := size store; totalEntries := size store |}, store).

(** [resetUserRateLimit] *)
Definition resetUserRateLimit (userId : string) (store : RateLimitStore)
    : RateLimitStore :=
  delete userId store.

(** [resetAllRateLimits] *)
Definition resetAllRateLimits (store : RateLimitStore) : RateLimitStore := ∅.

(** ** The engine interface of the design document *)

(** [check(key, now)]: one request served while the clock reads [now]. *)
Definition check (config : RateLimitConfig) (key : string) (now : Z)
    (store : RateLimitStore) : Response * RateLimitStore :=
  middleware config key (mkClock now now now) store.

(** Sequential [check] calls for one key, at the given times. *)
Fixpoint checks (config : RateLimitConfig) (key : string) (times : list Z)
    (store : RateLimitStore) : list Response * RateLimitStore :=
  match times with
  | [] => ([], store)
  | now :: times =>
      let '(res, store) := check config key now store in
      let '(ress, store) := checks config key times store in
      (res :: ress, store)
  end.

(** ** Auxiliary notions used in the statements *)

(** The record a request at [now] counts against: the stored one while
    it has not expired, a new window otherwise. *)
Definition current (config : RateLimitConfig) (now : Z)
    (o : option UserRateLimit) : UserRateLimit :=
  match o with
  | None => {| count := 0; resetTime := now + windowSec config * 1000 |}
  | Some userData =>
      if expired now userData
      then {| count := 0; resetTime := now + windowSec config * 1000 |}
      else userData
  end.

(** The factory throws instead of returning a middleware. *)
Definition construction_fails (env : ProcessEnv)
    (customConfig : option PartialRateLimitConfig) : Prop :=
  exists msg, createRateLimiterMiddleware env customConfig = Throw msg.



(** [n <= 0] on a JavaScript number ([NaN <= 0] is false). *)
Definition le_zero (n : option Z) : Prop :=
  exists v, n = Some v /\ v <= 0.



(** The statement of the design document: a record whose [windowEnd] is
    at or before [now] is replaced before the request is counted, and the
    request is answered with [limit - 1] remaining. *)
Definition replaced_when_windowEnd_le_now (config : RateLimitConfig)
    (key : string) (now : Z) (store : RateLimitStore) : Prop :=
  (store !! key = None \/
   exists r, store !! key = Some r /\ resetTime r <= now) ->
  (check config key now store).2 !! key
    = Some {| count := 0 + 1; resetTime := now + windowSec config * 1000 |} /\
  X_RateLimit_Remaining (check config key now store).1 = limit config - 1.

(** The statement of the design document: nothing with
    [windowEnd <= now] is left in the store. *)
Definition none_with_windowEnd_le_now (now : Z) (store : RateLimitStore)
    : Prop :=
  forall k r, store !! k = Some r -> ~ resetTime r <= now.

(** The statement of the design document, read on the clock readings of
    the source: the headers are computed from the record stored under the
    user, [now] being one of the three readings of the call. *)
Definition reports_quota_of_record (config : RateLimitConfig)
    (userId : string) (clock : Clock) (store : RateLimitStore) : Prop :=
  let served := middleware config userId clock store in
  exists userData now,
    served.2 !! userId = Some userData /\
    (now = at_cleanup clock \/ now = at_request clock \/
     now = at_headers clock) /\
    X_RateLimit_Remaining served.1
    = Z.max 0 (limit config - count userData) /\
    X_RateLimit_Reset served.1
    = JS.ceil_div (resetTime userData - now) 1000.

(** ** Requests of several keys *)

(** Sequential [check] calls, each for its own key at its own time. *)
Fixpoint requests (config : RateLimitConfig) (calls : list (string * Z))
    (store : RateLimitStore) : list Response * RateLimitStore :=
  match calls with
  | [] => ([], store)
  | (key, now) :: calls =>
      let '(res, store) := check config key now store in
      let '(ress, store) := requests config calls store in
      (res :: ress, store)
  end.

(** The times of a list of calls never go back. *)
Fixpoint nondecreasing (now : Z) (calls : list (string * Z)) : Prop :=
  match calls with
  | [] => True
  | (_, t) :: calls => now <= t /\ nondecreasing t calls
  end.

(** Sequential passes of the middleware, each for its own user with its
    own three clock readings. *)
Fixpoint serve (config : RateLimitConfig) (calls : list (string * Clock))
    (store : RateLimitStore) : list Response * RateLimitStore :=
  match calls with
  | [] => ([], store)
  | (userId, clock) :: calls =>
      let '(res, store) := middleware config userId clock store in
      let '(ress, store) := serve config calls store in
      (res :: ress, store)
  end.

(** The clock never goes back from the counting of one request to the
    computing of its headers, nor from the counting of one request to the
    counting of the next. *)
Fixpoint ticking (now : Z) (calls : list (string * Clock)) : Prop :=
  match calls with
  | [] => True
  | (_, clock) :: calls =>
      now <= at_request clock /\
      at_request clock <= at_headers clock /\
      ticking (at_request clock) calls
  end.

(** The times of the calls of one key, and the responses to them. *)
Fixpoint times_of (key : string) (calls : list (string * Z)) : list Z :=
  match calls with
  | [] => []
  | (k, t) :: calls =>
      if decide (k = key) then t :: times_of key calls
      else times_of key calls
  end.

Fixpoint answers_to (key : string) (calls : list (string * Z))
    (ress : list Response) : list Response :=
  match calls, ress with
  | (k, _) :: calls, res :: ress =>
      if decide (k = key) then res :: answers_to key calls ress
      else answers_to key calls ress
  | _, _ => []
  end.

(** ** The handler with its request and response objects *)

(** [n.toString()] on an integer: its decimal digits, after a minus sign
    when it is negative.  This is what JavaScript prints for the integers
    it represents exactly and prints in full, those up to
    [Number.MAX_SAFE_INTEGER] in magnitude. *)
Definition toString (n : Z) : string := pretty n.

(** [Number.MAX_SAFE_INTEGER], [2^53 - 1]. *)
Definition MAX_SAFE_INTEGER : Z := 9007199254740991.

(** The options object of [res.cookie]. *)
Record CookieOptions : Type := mkCookieOptions {
  maxAge : Z;
  httpOnly : bool;
  sameSite : string
}.

Record Cookie : Type := mkCookie {
  cookie_name : string;
  cookie_value : string;
  cookie_options : CookieOptions
}.

(** The parts of [req] the module reads and writes: the [userId] property
    and the object of parsed cookies, either of which may be [undefined]. *)
Record Request : Type := mkRequest {
  req_userId : option string;
  req_cookies : option (gmap string string)
}.

(** What has been done to [res], to [next] and to the console, in program
    order (the latest call is the head of each list). *)
Record ServerResponse : Type := mkServerResponse {
  cookies_set : list Cookie;
  headers_set : list (string * string);
  status_set : option Z;
  json_sent : option ErrorBody;
  next_calls : nat;
  errors_logged : list string
}.

Definition untouched : ServerResponse :=
  {| cookies_set := []; headers_set := []; status_set := None;
     json_sent := None; next_calls := 0; errors_logged := [] |}.

(** The methods of the response object the module calls; [Some msg] is a
    method that throws [new Error(msg)] when called, as the [setHeader] of
    the error-handling test does.  [next] and [console.error] return. *)
Record Host : Type := mkHost {
  cookie_throws : option string;
  setHeader_throws : string -> option string;
  status_throws : option string;
  json_throws : option string
}.

(** A response object none of whose methods throws. *)
Definition sound_host : Host :=
  {| cookie_throws := None; setHeader_throws := fun _ => None;
     status_throws := None; json_throws := None |}.

(** Everything one pass of the handler can read and change. *)
Record World : Type := mkWorld {
  w_store : RateLimitStore;
  w_req : Request;
  w_res : ServerResponse
}.

(** A computation on the world that returns or throws; what it changed
    before throwing stays changed. *)
Definition M (A : Type) : Type := World -> Completion A * World.

#[global] Instance M_ret : MRet M := fun A a w => (Return a, w).

#[global] Instance M_bind : MBind M := fun A B f m w =>
  match m w with
  | (Return a, w) => f a w
  | (Throw e, w) => (Throw e, w)
  end.

Definition throw {A : Type} (e : string) : M A := fun w => (Throw e, w).

(** [try { body } catch (error) { handler(error) }] *)
Definition try_catch {A : Type} (body : M A) (handler : string -> M A)
    : M A :=
  fun w =>
    match body w with
    | (Return a, w) => (Return a, w)
    | (Throw e, w) => handler e w
    end.

Definition get_req : M Request := fun w => (Return (w_req w), w).

Definition get_store : M RateLimitStore := fun w => (Return (w_store w), w).

Definition put_store (store : RateLimitStore) : M unit := fun w =>
  (Return (), {| w_store := store; w_req := w_req w; w_res := w_res w |}).

(** [(req as any).userId = userId] *)
Definition set_req_userId (userId : string) : M unit := fun w =>
  (Return (),
   {| w_store := w_store w;
      w_req := {| req_userId := Some userId;
                  req_cookies := req_cookies (w_req w) |};
      w_res := w_res w |}).

(** A call on the response object, or on [next] or the console: it throws,
    or it is recorded. *)
Definition call (throws : option string)
    (record : ServerResponse -> ServerResponse) : M unit :=
  match throws with
  | Some e => throw e
  | None => fun w =>
      (Return (),
       {| w_store := w_store w; w_req := w_req w;
          w_res := record (w_res w) |})
  end.

Definition res_cookie (host : Host) (name value : string)
    (options : CookieOptions) : M unit :=
  call (cookie_throws host) (fun res =>
    {| cookies_set := mkCookie name value options :: cookies_set res;
       headers_set := headers_set res; status_set := status_set res;
       json_sent := json_sent res; next_calls := next_calls res;
       errors_logged := errors_logged res |}).

Definition res_setHeader (host : Host) (name value : string) : M unit :=
  call (setHeader_throws host name) (fun res =>
    {| cookies_set := cookies_set res;
       headers_set := (name, value) :: headers_set res;
       status_set := status_set res;
       json_sent := json_sent res; next_calls := next_calls res;
       errors_logged := errors_logged res |}).

Definition res_status (host : Host) (code : Z) : M unit :=
  call (status_throws host) (fun res =>
    {| cookies_set := cookies_set res; headers_set := headers_set res;
       status_set := Some code;
       json_sent := json_sent res; next_calls := next_calls res;
       errors_logged := errors_logged res |}).

Definition res_json (host : Host) (body : ErrorBody) : M unit :=
  call (json_throws host) (fun res =>
    {| cookies_set := cookies_set res; headers_set := headers_set res;
       status_set := status_set res;
       json_sent := Some body; next_calls := next_calls res;
       errors_logged := errors_logged res |}).

Definition next : M unit :=
  call None (fun res =>
    {| cookies_set := cookies_set res; headers_set := headers_set res;
       status_set := status_set res;
       json_sent := json_sent res; next_calls := S (next_calls res);
       errors_logged := errors_logged res |}).

(** [console.error('[RateLimiter] Error:', error)] *)
Definition console_error (error : string) : M unit :=
  call None (fun res =>
    {| cookies_set := cookies_set res; headers_set := headers_set res;
       status_set := status_set res;
       json_sent := json_sent res; next_calls := next_calls res;
       errors_logged := error :: errors_logged res |}).

(** The value of a string-or-undefined when it is truthy: [undefined] and
    the empty string are not. *)
Definition truthy (v : option string) : option string :=
  match v with
  | Some s => if decide (s = "") then None else Some s
  | None => None
  end.

(** [getUserId]; [uuid] is what [uuidv4()] returns if it is called. *)
Definition getUserId (host : Host) (uuid : string) : M string :=
  req ← get_req;
  match truthy (req_userId req) with
  | Some userId => mret userId
  | None =>
      let existingUserId := req_cookies req ≫= (.!! "userId") in
      match truthy existingUserId with
      | Some existingUserId =>
          set_req_userId existingUserId;;
          mret existingUserId
      | None =>
          let userId := uuid in
          set_req_userId userId;;
          res_cookie host "userId" userId
            {| maxAge := 24 * 60 * 60 * 1000;
               httpOnly := true;
               sameSite := "lax" |};;
          mret userId
      end
  end.

(** The closure returned by [createRateLimiterMiddleware], on its
    [(req, res, next)], with the [try]/[catch] around its body. *)
Definition rateLimiter (config : RateLimitConfig) (host : Host)
    (uuid : string) (clock : Clock) : M unit :=
  try_catch
    (store ← get_store;
     put_store (cleanupExpiredEntries (at_cleanup clock) store);;
     userId ← getUserId host uuid;
     let now := at_request clock in
     let fresh :=
       {| count := 0; resetTime := now + windowSec config * 1000 |} in
     store ← get_store;
     let userData :=
       match store !! userId with
       | None => fresh
       | Some userData => if expired now userData then fresh else userData
       end in
     let userData :=
       {| count := count userData + 1; resetTime := resetTime userData |} in
     put_store (<[userId := userData]> store);;
     store ← get_store;
     let data := getUserRateLimitData (at_headers clock) userId config store in
     res_setHeader host "X-RateLimit-Limit" (toString (limit config));;
     res_setHeader host "X-RateLimit-Remaining"
       (toString (Z.max 0 (remaining data)));;
     res_setHeader host "X-RateLimit-Reset" (toString (resetIn data));;
     if count userData >? limit config then
       res_status host 429;;
       res_json host
         {| error := "rate_limited";
            message := "Too many requests, please try again later." |}
     else
       next)
    (fun error => console_error error;; next).

(** One pass of the handler over a request object, a response object that
    nothing has touched yet, and the store. *)
Definition handle (config : RateLimitConfig) (host : Host) (uuid : string)
    (clock : Clock) (req : Request) (store : RateLimitStore) : World :=
  (rateLimiter config host uuid clock
     {| w_store := store; w_req := req; w_res := untouched |}).2.

(** The end of the closure's body under its [catch]: the three headers
    and the verdict of a computed response. *)
Definition respond (host : Host) (res : Response) : M unit :=
  try_catch
    (res_setHeader host "X-RateLimit-Limit"
       (toString (X_RateLimit_Limit res));;
     res_setHeader host "X-RateLimit-Remaining"
       (toString (X_RateLimit_Remaining res));;
     res_setHeader host "X-RateLimit-Reset"
       (toString (X_RateLimit_Reset res));;
     if admitted res then
       next
     else
       res_status host 429;;
       res_json host
         {| error := "rate_limited";
            message := "Too many requests, please try again later." |})
    (fun error => console_error error;; next).

(** The user id [getUserId] resolves for a request object. *)
Definition resolved (uuid : string) (req : Request) : string :=
  match truthy (req_userId req) with
  | Some userId => userId
  | None =>
      match truthy (req_cookies req ≫= (.!! "userId")) with
      | Some existingUserId => existingUserId
      | None => uuid
      end
  end.

(** The string is empty or starts with something else than a digit. *)
Definition no_leading_digit (s : string) : bool :=
  match s with
  | String c _ => bool_decide (JS.digit_value c = None)
  | EmptyString => true
  end.

(** Every record has counted at least one request and ends its window no
    later than a window opened at [now] would. *)
Definition within_window (config : RateLimitConfig) (now : Z)
    (store : RateLimitStore) : Prop :=
  forall k r,
    store !! k = Some r ->
    1 <= count r /\ resetTime r <= now + windowSec config * 1000.

(** * Properties *)

(** ** The model on the documented examples *)

Example parseInt_examples :
  JS.parseInt "5" = Some 5 /\ JS.parseInt "60" = Some 60 /\
  JS.parseInt "  -12px" = Some (-12) /\ JS.parseInt "+7" = Some 7 /\
  JS.parseInt "" = None /\ JS.parseInt "abc" = None /\
  JS.parseInt "-" = None.
Proof. repeat split; reflexivity. Qed.

(** Limit 5, window 60 s: five requests of ["u1"] are admitted with 4, 3,
    2, 1 and 0 remaining, the sixth is rejected with 0 remaining, and the
    request 61 s after the first is admitted with 4 remaining. *)
Example scenario_u1 :
  map (fun res => (admitted res, X_RateLimit_Remaining res))
    (checks {| limit := 5; windowSec := 60 |} "u1"
       [0; 10; 20; 30; 40; 50; 61000] ∅).1
  = [(true, 4); (true, 3); (true, 2); (true, 1); (true, 0); (false, 0);
     (true, 4)].
Proof. vm_compute. reflexivity. Qed.

(** ** Arithmetic of the reported values *)

Lemma expired_false now data :
  expired now data = false <-> now <= resetTime data.
Proof. unfold expired. rewrite Z.gtb_ltb, Z.ltb_ge. reflexivity. Qed.

Lemma expired_true now data :
  expired now data = true <-> resetTime data < now.
Proof. unfold expired. rewrite Z.gtb_ltb, Z.ltb_lt. reflexivity. Qed.

(** [ceil_div a b] is the least integer [n] with [a <= n * b]. *)
Lemma ceil_div_spec a b :
  0 < b -> (JS.ceil_div a b - 1) * b < a <= JS.ceil_div a b * b.
Proof.
  intros Hb. unfold JS.ceil_div.
  pose proof (Z.div_mod (- a) b) as Hdm.
  pose proof (Z.mod_pos_bound (- a) b Hb) as Hmod.
  nia.
Qed.

Lemma ceil_div_mul w : JS.ceil_div (w * 1000) 1000 = w.
Proof.
  unfold JS.ceil_div.
  replace (- (w * 1000)) with ((- w) * 1000) by lia.
  rewrite Z.div_mul by lia. lia.
Qed.

(** ** One step of the store *)

Section Step.

Variable config : RateLimitConfig.

Lemma cleanup_lookup_Some now store k r :
  cleanupExpiredEntries now store !! k = Some r <->
  store !! k = Some r /\ now <= resetTime r.
Proof.
  unfold cleanupExpiredEntries.
  rewrite map_lookup_filter_Some. simpl. rewrite expired_false. reflexivity.
Qed.

Lemma cleanup_lookup_None now store k :
  cleanupExpiredEntries now store !! k = None <->
  store !! k = None \/ exists r, store !! k = Some r /\ resetTime r < now.
Proof.
  destruct (cleanupExpiredEntries now store !! k) as [r|] eqn:E.
  - apply cleanup_lookup_Some in E as [E1 E2]. split; [discriminate|].
    intros [H | (r' & H & Hlt)]; rewrite E1 in H; [discriminate|].
    injection H as <-. lia.
  - split; [intros _ | reflexivity].
    destruct (store !! k) as [r|] eqn:E1; [right | left; reflexivity].
    exists r. split; [reflexivity|].
    destruct (Z_lt_le_dec (resetTime r) now) as [Hlt | Hle]; [exact Hlt|].
    assert (cleanupExpiredEntries now store !! k = Some r) as E2
      by (apply cleanup_lookup_Some; auto).
    rewrite E in E2. discriminate.
Qed.

(** Cleaning at [now] and then testing expiry at [now] is testing expiry
    on the stored record. *)
Lemma current_cleanup now store k :
  current config now (cleanupExpiredEntries now store !! k) =
  current config now (store !! k).
Proof.
  destruct (cleanupExpiredEntries now store !! k) as [r|] eqn:E.
  - apply cleanup_lookup_Some in E as [-> _]. reflexivity.
  - apply cleanup_lookup_None in E as [-> | (r & -> & Hlt)]; [reflexivity|].
    simpl. apply expired_true in Hlt. rewrite Hlt. reflexivity.
Qed.

(** The record stored under the key when [check] returns. *)
Lemma check_lookup key now store :
  (check config key now store).2 !! key =
  Some {| count := count (current config now (store !! key)) + 1;
          resetTime := resetTime (current config now (store !! key)) |}.
Proof.
  unfold check, middleware. simpl.
  fold (current config now (cleanupExpiredEntries now store !! key)).
  rewrite current_cleanup.
  destruct (_ >? _); simpl; apply lookup_insert_eq.
Qed.

(** Every other key sees the cleanup only. *)
Lemma check_lookup_ne key k now store :
  key <> k ->
  (check config key now store).2 !! k =
  cleanupExpiredEntries now store !! k.
Proof.
  intros Hne. unfold check, middleware. simpl.
  destruct (_ >? _); simpl; rewrite lookup_insert_ne by exact Hne; reflexivity.
Qed.

(** The response, whenever the counted record has not expired at [now]. *)
Lemma check_response key now store :
  now <= resetTime (current config now (store !! key)) ->
  (check config key now store).1 =
  {| X_RateLimit_Limit := limit config;
     X_RateLimit_Remaining :=
       Z.max 0 (limit config - (count (current config now (store !! key)) + 1));
     X_RateLimit_Reset :=
       JS.ceil_div (resetTime (current config now (store !! key)) - now) 1000;
     outcome :=
       if count (current config now (store !! key)) + 1 >? limit config
       then Status429
              {| error := "rate_limited";
                 message := "Too many requests, please try again later." |}
       else Next |}.
Proof.
  intros Hlive. unfold check, middleware. simpl.
  fold (current config now (cleanupExpiredEntries now store !! key)).
  rewrite current_cleanup.
  set (cur := current config now (store !! key)) in *.
  unfold getUserRateLimitData. rewrite lookup_insert_eq.
  assert (expired now {| count := count cur + 1; resetTime := resetTime cur |}
          = false) as -> by (apply expired_false; exact Hlive).
  simpl. rewrite Z.max_r by lia.
  destruct (_ >? _); reflexivity.
Qed.

(** With a window length that is not negative the counted record never
    is expired at [now]. *)
Lemma current_live now o :
  0 <= windowSec config -> now <= resetTime (current config now o).
Proof.
  intros Hw. unfold current. destruct o as [r|]; simpl; [|lia].
  destruct (expired now r) eqn:E; simpl; [lia|].
  apply expired_false. exact E.
Qed.

Lemma current_fresh now o :
  o = None \/ (exists r, o = Some r /\ resetTime r < now) ->
  current config now o
  = {| count := 0; resetTime := now + windowSec config * 1000 |}.
Proof.
  intros [-> | (r & -> & Hlt)]; [reflexivity|].
  simpl. apply expired_true in Hlt. rewrite Hlt. reflexivity.
Qed.

Lemma current_kept now r :
  now <= resetTime r -> current config now (Some r) = r.
Proof. intros H. simpl. apply expired_false in H. rewrite H. reflexivity. Qed.

End Step.

(** ** Sequential requests of one key *)

Lemma admitted_outcome l r t n lim body :
  admitted {| X_RateLimit_Limit := l; X_RateLimit_Remaining := r;
              X_RateLimit_Reset := t;
              outcome := if n >? lim then Status429 body else Next |}
  = (n <=? lim).
Proof.
  unfold admitted. simpl. rewrite Z.gtb_ltb.
  destruct (Z.ltb_spec lim n), (Z.leb_spec n lim); try lia; reflexivity.
Qed.

Section OneKey.

Variable config : RateLimitConfig.
Variable key : string.

Lemma checks_length times store :
  length (checks config key times store).1 = length times.
Proof.
  revert store. induction times as [|now times IH]; intros store; simpl.
  - reflexivity.
  - destruct (check config key now store) as [res store1].
    specialize (IH store1).
    destruct (checks config key times store1) as [ress store2].
    simpl in *. rewrite IH. reflexivity.
Qed.

(** While the window of a stored record is open, each further request
    adds one to its count and answers for the new count. *)
Lemma checks_open_window times : forall store c rt (i : nat) res,
  store !! key = Some {| count := c; resetTime := rt |} ->
  Forall (fun now => now <= rt) times ->
  (checks config key times store).1 !! i = Some res ->
  admitted res = (c + Z.of_nat (S i) <=? limit config) /\
  X_RateLimit_Remaining res = Z.max 0 (limit config - (c + Z.of_nat (S i))).
Proof.
  induction times as [|now times IH]; intros store c rt i res Hk Hin Hi.
  - simpl in Hi. discriminate.
  - apply Forall_cons in Hin as [Hnow Hin].
    pose proof (check_lookup config key now store) as Hstore.
    pose proof (check_response config key now store) as Hres.
    rewrite Hk, current_kept in Hstore, Hres by exact Hnow.
    specialize (Hres Hnow). simpl in Hstore, Hres, Hi.
    destruct (check config key now store) as [res1 store1].
    specialize (IH store1 (c + 1) rt).
    destruct (checks config key times store1) as [ress store2].
    simpl in *. destruct i as [|i]; simpl in Hi.
    + injection Hi as <-. subst res1. rewrite admitted_outcome.
      split; reflexivity.
    + destruct (IH i res Hstore Hin Hi) as [Ha Hr].
      replace (c + Z.of_nat (S (S i))) with (c + 1 + Z.of_nat (S i)) by lia.
      split; assumption.
Qed.

End OneKey.

(** C1: for a config with limit [L] and a positive window length, requests
    of one key that all fall inside the window opened by the first of them
    each get an answer; the [k]-th is admitted with [L - k] remaining while
    [k <= L], and rejected with 0 remaining once [k > L]. *)
Theorem C1_quota_within_one_window config key now times store :
  0 < windowSec config ->
  (store !! key = None \/
   exists r, store !! key = Some r /\ resetTime r < now) ->
  Forall (fun t => t < now + windowSec config * 1000) times ->
  let answers := (checks config key (now :: times) store).1 in
  length answers = length (now :: times) /\
  forall (i : nat) res,
    answers !! i = Some res ->
    let k := Z.of_nat (S i) in
    (k <= limit config ->
       admitted res = true /\ X_RateLimit_Remaining res = limit config - k) /\
    (limit config < k ->
       admitted res = false /\ X_RateLimit_Remaining res = 0).
Proof.
  intros Hw Hfresh Hin answers. split; [apply checks_length|].
  assert (forall (i : nat) res, answers !! i = Some res ->
            admitted res = (Z.of_nat (S i) <=? limit config) /\
            X_RateLimit_Remaining res
              = Z.max 0 (limit config - Z.of_nat (S i))) as Hall.
  { subst answers. intros i res Hi.
    pose proof (check_lookup config key now store) as Hstore.
    pose proof (check_response config key now store) as Hres.
    rewrite (current_fresh config now _ Hfresh) in Hstore, Hres.
    simpl in Hstore, Hres, Hi.
    destruct (check config key now store) as [res1 store1].
    pose proof (checks_open_window config key times store1 1
                  (now + windowSec config * 1000)) as Hrest.
    destruct (checks config key times store1) as [ress store2].
    simpl in *. destruct i as [|i]; simpl in Hi.
    - injection Hi as <-. rewrite Hres by lia. rewrite admitted_outcome.
      split; reflexivity.
    - destruct (Hrest i res Hstore) as [Ha Hr]; [|exact Hi|].
      + eapply Forall_impl; [exact Hin|]. simpl. intros; lia.
      + replace (Z.of_nat (S (S i))) with (1 + Z.of_nat (S i)) by lia.
        split; assumption. }
  intros i res Hi k. destruct (Hall i res Hi) as [Ha Hr]. fold k in Ha, Hr.
  split; intros Hk.
  - split.
    + rewrite Ha. apply Z.leb_le. exact Hk.
    + rewrite Hr. lia.
  - split.
    + rewrite Ha. apply Z.leb_gt. exact Hk.
    + rewrite Hr. lia.
Qed.

(** The scenario of the design document: limit 5, window 60 s, six requests
    of ["u1"] inside the first minute. *)
Lemma C1_quota_within_one_window_witness :
  let config := {| limit := 5; windowSec := 60 |} in
  let times := [1; 1000; 2000; 30000; 59999] in
  0 < windowSec config /\
  (∅ : RateLimitStore) !! "u1" = None /\
  Forall (fun t => t < 0 + windowSec config * 1000) times /\
  let answers := (checks config "u1" (0 :: times) ∅).1 in
  length answers = 6%nat /\
  forall (i : nat) res,
    answers !! i = Some res ->
    (Z.of_nat (S i) <= 5 ->
       admitted res = true /\ X_RateLimit_Remaining res = 5 - Z.of_nat (S i)) /\
    (5 < Z.of_nat (S i) ->
       admitted res = false /\ X_RateLimit_Remaining res = 0).
Proof.
  intros config times.
  assert (0 < windowSec config) as Hw by (simpl; lia).
  assert (Forall (fun t => t < 0 + windowSec config * 1000) times) as Hin
    by (repeat constructor; simpl; lia).
  split; [exact Hw|]. split; [reflexivity|]. split; [exact Hin|].
  exact (C1_quota_within_one_window config "u1" 0 times ∅ Hw
           (or_introl eq_refl) Hin).
Defined.

(** ** Opening a window *)

(** C2, as stated, fails when the request arrives exactly at the end of the
    window: the expiry test is [now > resetTime], so the record is kept and
    counted against.  Limit 5, window 60 s, one request counted, window
    ending at 1000, next request at 1000. *)
Lemma C2_counterexample :
  ~ replaced_when_windowEnd_le_now {| limit := 5; windowSec := 60 |} "u1" 1000
      {[ "u1" := {| count := 1; resetTime := 1000 |} ]}.
Proof.
  unfold replaced_when_windowEnd_le_now. intros H.
  destruct H as [_ H].
  - right. exists {| count := 1; resetTime := 1000 |}.
    split; [reflexivity | simpl; lia].
  - vm_compute in H. discriminate H.
Qed.

(** C2, amended: with a valid config, when the key has no record or its
    record has [resetTime < now], the record becomes [count = 0],
    [resetTime = now + windowSec * 1000] before the increment, the request
    is admitted and reports [limit - 1] remaining and [windowSec] seconds
    to the reset.  In particular this is what happens once more than
    [windowSec] seconds have passed since the window [start]. *)
Theorem C2_fresh_window config key now store :
  0 < limit config ->
  0 < windowSec config ->
  (store !! key = None \/
   exists r, store !! key = Some r /\ resetTime r < now) ->
  let res := (check config key now store).1 in
  (check config key now store).2 !! key
    = Some {| count := 0 + 1; resetTime := now + windowSec config * 1000 |} /\
  admitted res = true /\
  X_RateLimit_Remaining res = limit config - 1 /\
  X_RateLimit_Reset res = windowSec config /\
  forall start c,
    store !! key
      = Some {| count := c; resetTime := start + windowSec config * 1000 |} ->
    start + windowSec config * 1000 < now ->
    X_RateLimit_Remaining res = limit config - 1.
Proof.
  intros Hl Hw Hfresh res.
  pose proof (check_lookup config key now store) as Hstore.
  pose proof (check_response config key now store) as Hres.
  rewrite (current_fresh config now _ Hfresh) in Hstore, Hres.
  simpl in Hstore, Hres. specialize (Hres ltac:(lia)).
  subst res. rewrite Hres, admitted_outcome. simpl.
  replace (now + windowSec config * 1000 - now)
    with (windowSec config * 1000) by lia.
  rewrite ceil_div_mul.
  repeat split; try assumption; lia.
Qed.

Lemma C2_fresh_window_witness :
  let config := {| limit := 5; windowSec := 60 |} in
  let store : RateLimitStore := {[ "u1" := {| count := 6; resetTime := 60000 |} ]} in
  let res := (check config "u1" 61000 store).1 in
  (check config "u1" 61000 store).2 !! "u1"
    = Some {| count := 1; resetTime := 121000 |} /\
  admitted res = true /\
  X_RateLimit_Remaining res = 4 /\
  X_RateLimit_Reset res = 60.
Proof.
  intros config store res.
  destruct (C2_fresh_window config "u1" 61000 store) as (H1 & H2 & H3 & H4 & _).
  - simpl; lia.
  - simpl; lia.
  - right. exists {| count := 6; resetTime := 60000 |}.
    split; [reflexivity | simpl; lia].
  - repeat split; assumption.
Defined.

(** ** One pass of the middleware on its three clock readings *)

Section Ticks.

Variable config : RateLimitConfig.
Variable userId : string.
Variable clock : Clock.
Variable store : RateLimitStore.

(** The record the middleware counts against. *)
Lemma middleware_lookup :
  let cur := current config (at_request clock)
               (cleanupExpiredEntries (at_cleanup clock) store !! userId) in
  (middleware config userId clock store).2 !! userId
  = Some {| count := count cur + 1; resetTime := resetTime cur |}.
Proof.
  unfold middleware, current. simpl.
  destruct (_ >? _); simpl; apply lookup_insert_eq.
Qed.

Lemma middleware_lookup_ne k :
  userId <> k ->
  (middleware config userId clock store).2 !! k
  = cleanupExpiredEntries (at_cleanup clock) store !! k.
Proof.
  intros Hne. unfold middleware. simpl.
  destruct (_ >? _); simpl; rewrite lookup_insert_ne by exact Hne; reflexivity.
Qed.

Lemma middleware_response :
  let cur := current config (at_request clock)
               (cleanupExpiredEntries (at_cleanup clock) store !! userId) in
  (middleware config userId clock store).1
  = {| X_RateLimit_Limit := limit config;
       X_RateLimit_Remaining :=
         if at_headers clock >? resetTime cur
         then Z.max 0 (limit config)
         else Z.max 0 (limit config - (count cur + 1));
       X_RateLimit_Reset :=
         if at_headers clock >? resetTime cur
         then windowSec config
         else JS.ceil_div (resetTime cur - at_headers clock) 1000;
       outcome :=
         if count cur + 1 >? limit config
         then Status429
                {| error := "rate_limited";
                   message := "Too many requests, please try again later." |}
         else Next |}.
Proof.
  unfold middleware. simpl.
  fold (current config (at_request clock)
          (cleanupExpiredEntries (at_cleanup clock) store !! userId)).
  set (cur := current _ _ _).
  unfold getUserRateLimitData. rewrite lookup_insert_eq.
  change (expired (at_headers clock)
            {| count := count cur + 1; resetTime := resetTime cur |})
    with (at_headers clock >? resetTime cur).
  destruct (at_headers clock >? resetTime cur); simpl;
    [| rewrite (Z.max_r 0 (Z.max 0 _)) by lia];
    destruct (count cur + 1 >? limit config); reflexivity.
Qed.

End Ticks.

(** ** The reported quota *)

(** C3, as stated, fails when the clock ticks past the end of the window
    between the counting of the request and the computing of its headers:
    limit 1, one request counted, window ending at 1000, the next request
    counted at 1000 and its headers computed at 1001.  The record then
    holds count 2, and the headers say 1 remaining and 60 seconds. *)
Lemma C3_counterexample :
  ~ reports_quota_of_record {| limit := 1; windowSec := 60 |} "u1"
      (mkClock 1000 1000 1001)
      {[ "u1" := {| count := 1; resetTime := 1000 |} ]}.
Proof.
  unfold reports_quota_of_record.
  intros (userData & now & Hlookup & _ & Hremaining & _).
  vm_compute in Hlookup. injection Hlookup as <-.
  vm_compute in Hremaining. discriminate Hremaining.
Qed.

(** C3, amended: every pass of the middleware stores a record under the
    user, reports the configured limit and admits exactly when the
    record's count is at most the limit.  Whenever the clock read for the
    headers is not past the record's [resetTime], it reports
    [remaining = max(0, limit - count)] and
    [resetIn = ceil((resetTime - now) / 1000)] of that record, [now] being
    that reading and [resetIn] the least number of whole seconds reaching
    [resetTime] -- by the same formulas for an admitted and for a rejected
    request.  The condition holds whenever the window length is not
    negative and the clock has not advanced since the request was
    counted. *)
Theorem C3_reported_quota config userId clock store :
  let served := middleware config userId clock store in
  exists userData,
    served.2 !! userId = Some userData /\
    X_RateLimit_Limit served.1 = limit config /\
    admitted served.1 = (count userData <=? limit config) /\
    (at_headers clock <= resetTime userData ->
     X_RateLimit_Remaining served.1
       = Z.max 0 (limit config - count userData) /\
     X_RateLimit_Reset served.1
       = JS.ceil_div (resetTime userData - at_headers clock) 1000 /\
     (X_RateLimit_Reset served.1 - 1) * 1000
       < resetTime userData - at_headers clock
       <= X_RateLimit_Reset served.1 * 1000) /\
    (0 <= windowSec config ->
     at_headers clock <= at_request clock ->
     at_headers clock <= resetTime userData).
Proof.
  intros served. subst served.
  eexists. split; [apply middleware_lookup|].
  rewrite middleware_response. cbn [count resetTime].
  set (cur := current config (at_request clock) _).
  rewrite admitted_outcome.
  cbn [X_RateLimit_Limit X_RateLimit_Remaining X_RateLimit_Reset].
  split; [reflexivity|]. split; [reflexivity|]. split.
  - intros Hlive.
    assert ((at_headers clock >? resetTime cur) = false) as ->
      by (rewrite Z.gtb_ltb; apply Z.ltb_ge; exact Hlive).
    split; [reflexivity|]. split; [reflexivity|].
    apply ceil_div_spec. lia.
  - intros Hw Hle.
    pose proof (current_live config (at_request clock)
                  (cleanupExpiredEntries (at_cleanup clock) store !! userId)
                  Hw) as Hcur.
    fold cur in Hcur. lia.
Qed.

(** A third request of a limit of 2, counted at 1500 and answered at 1502
    in a window that ends at 60000. *)
Lemma C3_reported_quota_witness :
  let config := {| limit := 2; windowSec := 60 |} in
  let store : RateLimitStore :=
    {[ "u1" := {| count := 2; resetTime := 60000 |} ]} in
  let served := middleware config "u1" (mkClock 1499 1500 1502) store in
  served.2 !! "u1" = Some {| count := 3; resetTime := 60000 |} /\
  admitted served.1 = false /\
  X_RateLimit_Remaining served.1 = 0 /\
  X_RateLimit_Reset served.1 = 59.
Proof.
  intros config store served.
  destruct (C3_reported_quota config "u1" (mkClock 1499 1500 1502) store)
    as (userData & Hlookup & _ & Hadmitted & Hquota & _).
  fold served in Hlookup, Hadmitted, Hquota.
  assert (served.2 !! "u1" = Some {| count := 3; resetTime := 60000 |})
    as Hstored by reflexivity.
  rewrite Hstored in Hlookup. injection Hlookup as <-.
  destruct Hquota as (Hremaining & Hreset & _); [simpl; lia|].
  split; [exact Hstored|]. split; [rewrite Hadmitted; reflexivity|].
  split; [rewrite Hremaining | rewrite Hreset]; reflexivity.
Defined.

(** ** Construction *)





(** C10: with [RATE_LIMIT] and [RATE_WINDOW_SEC] unset and no custom
    config, construction succeeds and the middleware runs with limit 5 and
    a window of 60 seconds. *)
Theorem C10_default_config :
  let env := {| RATE_LIMIT := None; RATE_WINDOW_SEC := None |} in
  getConfig env
    = Return {| limit := DEFAULT_RATE_LIMIT;
                windowSec := DEFAULT_RATE_WINDOW_SEC |} /\
  createRateLimiterMiddleware env None
    = Return (middleware {| limit := 5; windowSec := 60 |}) /\
  ~ construction_fails env None.
Proof.
  intros env.
  assert (getConfig env = Return {| limit := 5; windowSec := 60 |}) as Hcfg
    by reflexivity.
  unfold construction_fails, createRateLimiterMiddleware. rewrite Hcfg.
  split; [reflexivity|]. split; [reflexivity|].
  intros [msg H]. discriminate H.
Qed.

(** ** What a request depends on *)

Section Frame.

Variable config : RateLimitConfig.

(** The response is a function of the record the request counts
    against. *)
Lemma check_response_congr key now store1 store2 :
  current config now (store1 !! key) = current config now (store2 !! key) ->
  (check config key now store1).1 = (check config key now store2).1.
Proof.
  intros Heq. unfold check, middleware. simpl.
  fold (current config now (cleanupExpiredEntries now store1 !! key)).
  fold (current config now (cleanupExpiredEntries now store2 !! key)).
  rewrite !current_cleanup, Heq.
  unfold getUserRateLimitData. rewrite !lookup_insert_eq.
  destruct (_ >? _); reflexivity.
Qed.

(** An earlier cleanup removes only what a later request would have
    replaced anyway. *)
Lemma current_earlier_cleanup t now store k :
  t <= now ->
  current config now (cleanupExpiredEntries t store !! k) =
  current config now (store !! k).
Proof.
  intros Hle.
  destruct (cleanupExpiredEntries t store !! k) as [r|] eqn:E.
  - apply cleanup_lookup_Some in E as [-> _]. reflexivity.
  - apply cleanup_lookup_None in E as [-> | (r & -> & Hlt)]; [reflexivity|].
    symmetry. apply current_fresh. right. exists r. split; [reflexivity | lia].
Qed.

End Frame.

Section TwoKeys.

Variable configA : RateLimitConfig.
Variables A B : string.
Hypothesis A_neq_B : A <> B.

(** Requests of [A] keep a record of [B] that outlives them. *)
Lemma checks_keep_live times : forall store r,
  store !! B = Some r ->
  Forall (fun t => t <= resetTime r) times ->
  (checks configA A times store).2 !! B = Some r.
Proof.
  induction times as [|t times IH]; intros store r HB Hin; simpl.
  - exact HB.
  - apply Forall_cons in Hin as [Ht Hin].
    assert ((check configA A t store).2 !! B = Some r) as H1.
    { rewrite check_lookup_ne by exact A_neq_B.
      apply cleanup_lookup_Some. auto. }
    destruct (check configA A t store) as [res1 store1].
    specialize (IH store1 r H1 Hin).
    destruct (checks configA A times store1) as [ress store2].
    exact IH.
Qed.

(** Requests of [A] do not change the record a later request of [B]
    counts against. *)
Lemma checks_keep_current configB times now : forall store,
  Forall (fun t => t <= now) times ->
  current configB now ((checks configA A times store).2 !! B) =
  current configB now (store !! B).
Proof.
  induction times as [|t times IH]; intros store Hin; simpl.
  - reflexivity.
  - apply Forall_cons in Hin as [Ht Hin].
    pose proof (check_lookup_ne configA A B t store A_neq_B) as H1.
    destruct (check configA A t store) as [res1 store1].
    specialize (IH store1 Hin).
    destruct (checks configA A times store1) as [ress store2].
    simpl in *. rewrite IH, H1.
    apply current_earlier_cleanup. exact Ht.
Qed.

End TwoKeys.

(** C7: for distinct keys [A] and [B], any number of requests of [A] made
    no later than [now] leave a record of [B] that is not expired at [now]
    exactly as it was, and a request of [B] at [now] gets the same response
    (verdict, remaining, reset) as if [A] had made no request at all. *)
Theorem C7_distinct_keys_independent configA configB A B times now store :
  A <> B ->
  Forall (fun t => t <= now) times ->
  let store' := (checks configA A times store).2 in
  (forall r, store !! B = Some r -> expired now r = false ->
             store' !! B = Some r) /\
  (check configB B now store').1 = (check configB B now store).1.
Proof.
  intros Hne Hin store'. split.
  - intros r HB Hlive. apply expired_false in Hlive.
    apply checks_keep_live; [exact Hne | exact HB |].
    eapply Forall_impl; [exact Hin|]. simpl. intros; lia.
  - apply check_response_congr. apply checks_keep_current; assumption.
Qed.

(** ["a"] exhausts a limit of 2 while ["b"] has one request counted. *)
Lemma C7_distinct_keys_independent_witness :
  let config := {| limit := 2; windowSec := 60 |} in
  let store : RateLimitStore := {[ "b" := {| count := 1; resetTime := 60000 |} ]} in
  let store' := (checks config "a" [10; 20; 30; 40] store).2 in
  store' !! "b" = Some {| count := 1; resetTime := 60000 |} /\
  (check config "b" 50 store').1 = (check config "b" 50 store).1.
Proof.
  intros config store store'.
  destruct (C7_distinct_keys_independent config config "a" "b"
              [10; 20; 30; 40] 50 store) as [H1 H2].
  - discriminate.
  - repeat constructor; lia.
  - split; [|exact H2].
    apply H1; reflexivity.
Defined.

(** ** The cleanup *)

(** C6, as stated, fails for an entry whose window ends exactly at [now]:
    the cleanup deletes on [now > resetTime] only. *)
Lemma C6_counterexample :
  ~ none_with_windowEnd_le_now 1000
      (check {| limit := 5; windowSec := 60 |} "a" 1000
         {[ "b" := {| count := 1; resetTime := 1000 |} ]}).2.
Proof.
  intros H.
  apply (H "b" {| count := 1; resetTime := 1000 |}).
  - reflexivity.
  - simpl. lia.
Qed.

(** C6, amended: the cleanup of every request keeps exactly the entries
    with [resetTime >= now], and when the request returns (window length
    not negative) no entry with [resetTime < now] is in the store. *)
Theorem C6_cleanup_drops_past_windows config key now store :
  0 <= windowSec config ->
  (forall k r,
     cleanupExpiredEntries now store !! k = Some r <->
     store !! k = Some r /\ ~ resetTime r < now) /\
  (forall k r,
     (check config key now store).2 !! k = Some r -> ~ resetTime r < now).
Proof.
  intros Hw. split.
  - intros k r. rewrite cleanup_lookup_Some. split; intros [H1 H2]; split;
      (exact H1 || lia).
  - intros k r Hk. destruct (decide (key = k)) as [<- | Hne].
    + rewrite check_lookup in Hk. injection Hk as <-. simpl.
      pose proof (current_live config now (store !! key) Hw). lia.
    + rewrite check_lookup_ne in Hk by exact Hne.
      apply cleanup_lookup_Some in Hk as [_ Hk]. lia.
Qed.

Lemma C6_cleanup_drops_past_windows_witness :
  let config := {| limit := 5; windowSec := 60 |} in
  let store : RateLimitStore :=
    {[ "b" := {| count := 1; resetTime := 999 |} ]} in
  0 <= windowSec config /\
  cleanupExpiredEntries 1000 store !! "b" = None /\
  forall k r,
    (check config "a" 1000 store).2 !! k = Some r -> ~ resetTime r < 1000.
Proof.
  intros config store.
  assert (0 <= windowSec config) as Hw by (simpl; lia).
  destruct (C6_cleanup_drops_past_windows config "a" 1000 store Hw) as [H1 H2].
  split; [exact Hw|]. split; [reflexivity | exact H2].
Defined.

(** ** Statistics *)

(** C8: [getRateLimitStats] reports the number of keys left in the store
    once every expired record ([now > resetTime]) is removed; the records
    it leaves are unchanged, so no count is incremented, and the response
    to a later request of any key is what it would have been without the
    call -- also to a request at any time at all of a key whose record was
    not expired. *)
Theorem C8_stats_purges_and_counts now store :
  let stats := (getRateLimitStats now store).1 in
  let store' := (getRateLimitStats now store).2 in
  activeUsers stats = size store' /\
  totalEntries stats = size store' /\
  (forall k r,
     store' !! k = Some r <-> store !! k = Some r /\ expired now r = false) /\
  (forall config key now',
     now <= now' ->
     (check config key now' store').1 = (check config key now' store).1) /\
  (forall config key now' r,
     store !! key = Some r -> expired now r = false ->
     (check config key now' store').1 = (check config key now' store).1).
Proof.
  intros stats store'. subst stats store'. unfold getRateLimitStats. simpl.
  split; [reflexivity|]. split; [reflexivity|]. split; [|split].
  - intros k r. rewrite cleanup_lookup_Some, expired_false. reflexivity.
  - intros config key now' Hle. apply check_response_congr.
    apply current_earlier_cleanup. exact Hle.
  - intros config key now' r Hk Hlive. apply check_response_congr.
    assert (cleanupExpiredEntries now store !! key = Some r) as ->.
    { apply cleanup_lookup_Some. split; [exact Hk|].
      apply expired_false. exact Hlive. }
    rewrite Hk. reflexivity.
Qed.

(** One expired record, one at the limit: the call reports one key and the
    next request of that key is rejected as before. *)
Lemma C8_stats_purges_and_counts_witness :
  let config := {| limit := 1; windowSec := 60 |} in
  let store : RateLimitStore :=
    {[ "old" := {| count := 3; resetTime := 500 |};
       "u1" := {| count := 1; resetTime := 60000 |} ]} in
  let store' := (getRateLimitStats 1000 store).2 in
  activeUsers (getRateLimitStats 1000 store).1 = 1%nat /\
  store' !! "u1" = Some {| count := 1; resetTime := 60000 |} /\
  (check config "u1" 2000 store').1 = (check config "u1" 2000 store).1 /\
  (check config "u1" 900 store').1 = (check config "u1" 900 store).1.
Proof.
  intros config store store'.
  destruct (C8_stats_purges_and_counts 1000 store) as (H1 & _ & H3 & H4 & H5).
  split; [rewrite H1; reflexivity|]. split; [|split].
  - apply H3. split; reflexivity.
  - apply H4. lia.
  - apply (H5 config "u1" 900 {| count := 1; resetTime := 60000 |});
      reflexivity.
Defined.

(** ** Resetting one key *)

(** C9: [resetUserRateLimit] removes the record of the key and nothing
    else, is the identity on a store without the key and therefore
    idempotent; with a valid config the next request of the key is
    admitted and answered as a first request: [limit - 1] remaining,
    [windowSec] seconds to the reset, a record with count 1. *)
Theorem C9_reset_user config key now store :
  0 < limit config ->
  0 < windowSec config ->
  let store' := resetUserRateLimit key store in
  store' !! key = None /\
  (forall k, k <> key -> store' !! k = store !! k) /\
  (store !! key = None -> store' = store) /\
  resetUserRateLimit key store' = store' /\
  (check config key now store').1
    = {| X_RateLimit_Limit := limit config;
         X_RateLimit_Remaining := limit config - 1;
         X_RateLimit_Reset := windowSec config;
         outcome := Next |} /\
  (check config key now store').2 !! key
    = Some {| count := 1; resetTime := now + windowSec config * 1000 |}.
Proof.
  intros Hl Hw store'. subst store'. unfold resetUserRateLimit.
  assert (delete key store !! key = None) as Hnone by apply lookup_delete_eq.
  split; [exact Hnone|]. split; [|split; [|split; [|split]]].
  - intros k Hne. apply lookup_delete_ne. congruence.
  - intros H. apply delete_id. exact H.
  - apply delete_id. exact Hnone.
  - rewrite check_response; rewrite Hnone; simpl; [|lia].
    replace (now + windowSec config * 1000 - now)
      with (windowSec config * 1000) by lia.
    rewrite ceil_div_mul, Z.max_r by lia.
    destruct (Z.gtb_spec (0 + 1) (limit config)); [lia | reflexivity].
  - rewrite check_lookup, Hnone. reflexivity.
Qed.

(** Limit 1: ["u1"] is exhausted, reset, and admitted again. *)
Lemma C9_reset_user_witness :
  let config := {| limit := 1; windowSec := 60 |} in
  let store := (checks config "u1" [0; 1] ∅).2 in
  admitted (check config "u1" 2 store).1 = false /\
  admitted (check config "u1" 2 (resetUserRateLimit "u1" store)).1 = true /\
  resetUserRateLimit "nobody" store = store.
Proof.
  intros config store.
  destruct (C9_reset_user config "u1" 2 store) as (_ & _ & _ & _ & H5 & _);
    [simpl; lia | simpl; lia |].
  destruct (C9_reset_user config "nobody" 2 store) as (_ & _ & H3 & _);
    [simpl; lia | simpl; lia |].
  split; [reflexivity|]. split.
  - rewrite H5. reflexivity.
  - apply H3. reflexivity.
Defined.

(** ** Several middleware instances *)

(** Every instance works on the one module-level store: a request served
    by one instance (window length not negative) leaves a record that a
    request of the same key served by any other instance, while that
    window is open, counts against. *)
Lemma instances_share_record config1 config2 key now now' store :
  0 <= windowSec config1 ->
  let store1 := (check config1 key now store).2 in
  exists r,
    store1 !! key = Some r /\
    (now' <= resetTime r ->
     (check config2 key now' store1).2 !! key
       = Some {| count := count r + 1; resetTime := resetTime r |} /\
     admitted (check config2 key now' store1).1
       = (count r + 1 <=? limit config2) /\
     X_RateLimit_Remaining (check config2 key now' store1).1
       = Z.max 0 (limit config2 - (count r + 1))).
Proof.
  intros Hw store1. subst store1.
  eexists. split; [apply check_lookup|].
  set (store1 := (check config1 key now store).2).
  set (r := {| count := _; resetTime := _ |}).
  assert (store1 !! key = Some r) as Hr by apply check_lookup.
  intros Hlive.
  pose proof (check_lookup config2 key now' store1) as Hstore.
  pose proof (check_response config2 key now' store1) as Hres.
  rewrite Hr, current_kept in Hstore, Hres by exact Hlive.
  rewrite (Hres Hlive), admitted_outcome. simpl.
  split; [exact Hstore|]. split; reflexivity.
Qed.

(** C5: the code at the set-up of the usage examples, a general instance
    of 100 requests per minute in front of a strict one of 5 per minute.
    Both are built by the factory, and both count on the record of the
    user in the one store, so each request to the strict route is counted
    twice: the first two are admitted by the strict instance with 3 and 1
    remaining, the third is rejected by it with the count at 6.  On a
    store of its own the strict instance would admit that third request
    with 2 remaining. *)
Theorem C5_instances_count_on_one_record :
  let env := {| RATE_LIMIT := None; RATE_WINDOW_SEC := None |} in
  let general := {| limit := 100; windowSec := 60 |} in
  let strict := {| limit := 5; windowSec := 60 |} in
  let pass := fun (store : RateLimitStore) (now : Z) =>
    check strict "u1" now (check general "u1" now store).2 in
  let first := pass ∅ 0 in
  let second := pass first.2 1000 in
  let third := pass second.2 2000 in
  let alone := checks strict "u1" [0; 1000; 2000] ∅ in
  createRateLimiterMiddleware env
    (Some {| limit_opt := Some 100; windowSec_opt := Some 60 |})
    = Return (middleware general) /\
  createRateLimiterMiddleware env
    (Some {| limit_opt := Some 5; windowSec_opt := Some 60 |})
    = Return (middleware strict) /\
  (admitted first.1, X_RateLimit_Remaining first.1) = (true, 3) /\
  (admitted second.1, X_RateLimit_Remaining second.1) = (true, 1) /\
  (admitted third.1, X_RateLimit_Remaining third.1) = (false, 0) /\
  third.2 !! "u1" = Some {| count := 6; resetTime := 60000 |} /\
  map (fun res => (admitted res, X_RateLimit_Remaining res)) alone.1
    = [(true, 4); (true, 3); (true, 2)].
Proof.
  intros env general strict pass first second third alone.
  assert (getConfig env = Return {| limit := 5; windowSec := 60 |}) as Hcfg
    by reflexivity.
  unfold createRateLimiterMiddleware. rewrite Hcfg.
  split; [reflexivity|]. split; [reflexivity|].
  repeat split; vm_compute; reflexivity.
Qed.

(** * Further properties of the module *)

(** ** Numbers written and read back *)

Lemma digit_value_pretty_N_char d :
  (d < 10)%N -> JS.digit_value (pretty_N_char d) = Some (Z.of_N d).
Proof.
  intros Hd.
  assert (d = 0 \/ d = 1 \/ d = 2 \/ d = 3 \/ d = 4 \/ d = 5 \/ d = 6 \/
          d = 7 \/ d = 8 \/ d = 9)%N as Hcases by lia.
  repeat (destruct Hcases as [-> | Hcases]; [reflexivity|]).
  subst d. reflexivity.
Qed.

Lemma pretty_N_char_plain d :
  (d < 10)%N ->
  JS.is_white_space (pretty_N_char d) = false /\
  pretty_N_char d <> "-"%char /\ pretty_N_char d <> "+"%char.
Proof.
  intros Hd.
  assert (d = 0 \/ d = 1 \/ d = 2 \/ d = 3 \/ d = 4 \/ d = 5 \/ d = 6 \/
          d = 7 \/ d = 8 \/ d = 9)%N as Hcases by lia.
  repeat (destruct Hcases as [-> | Hcases];
          [split; [reflexivity | split; discriminate]|]).
  subst d. split; [reflexivity | split; discriminate].
Qed.

(** The digits of [x], written in front of [s], are read back as [x]. *)
Lemma digits_pretty_N_go x : forall s,
  (0 < x)%N ->
  JS.digits None (pretty_N_go x s) = JS.digits (Some (Z.of_N x)) s.
Proof.
  induction (N.lt_wf_0 x) as [x _ IH]. intros s Hx.
  rewrite pretty_N_go_step by exact Hx.
  pose proof (N.div_mod x 10%N ltac:(lia)) as Hdm.
  pose proof (N.mod_lt x 10%N ltac:(lia)) as Hmod.
  destruct (N.eq_dec (x `div` 10)%N 0%N) as [E | E].
  - rewrite E, pretty_N_go_0. simpl.
    rewrite digit_value_pretty_N_char by exact Hmod. simpl.
    f_equal. f_equal. lia.
  - rewrite IH; [| apply N.div_lt; lia | lia]. simpl.
    rewrite digit_value_pretty_N_char by exact Hmod. simpl.
    f_equal. f_equal. lia.
Qed.

Lemma pretty_N_go_app x : forall s r,
  pretty_N_go x s +:+ r = pretty_N_go x (s +:+ r).
Proof.
  induction (N.lt_wf_0 x) as [x _ IH]. intros s r.
  destruct (N.eq_dec x 0%N) as [-> | Hx].
  - rewrite !pretty_N_go_0. reflexivity.
  - rewrite (pretty_N_go_step x s), (pretty_N_go_step x (s +:+ r)) by lia.
    rewrite IH by (apply N.div_lt; lia). reflexivity.
Qed.

Lemma pretty_N_go_head x : forall s,
  (0 < x)%N ->
  exists d s', (d < 10)%N /\ pretty_N_go x s = String (pretty_N_char d) s'.
Proof.
  induction (N.lt_wf_0 x) as [x _ IH]. intros s Hx.
  rewrite pretty_N_go_step by exact Hx.
  destruct (N.eq_dec (x `div` 10)%N 0%N) as [E | E].
  - rewrite E, pretty_N_go_0. exists (x `mod` 10)%N, s.
    split; [apply N.mod_lt; lia | reflexivity].
  - apply IH; [apply N.div_lt; lia | apply N.neq_0_lt_0; exact E].
Qed.

Lemma digits_stop v s :
  no_leading_digit s = true -> JS.digits (Some v) s = Some v.
Proof.
  destruct s as [|c s]; simpl; [reflexivity|].
  intros H. apply bool_decide_eq_true in H. rewrite H. reflexivity.
Qed.

(** Reading the decimal digits of a positive number. *)
Lemma parseInt_pretty_pos p rest :
  no_leading_digit rest = true ->
  JS.parseInt (pretty (N.pos p) +:+ rest) = Some (Z.pos p).
Proof.
  intros Hrest. unfold pretty, pretty_N.
  destruct (decide (N.pos p = 0%N)) as [E | _]; [discriminate E|].
  rewrite pretty_N_go_app. change ("" +:+ rest) with rest.
  destruct (pretty_N_go_head (N.pos p) rest ltac:(lia)) as (d & s' & Hd & E).
  destruct (pretty_N_char_plain d Hd) as (Hws & Hminus & Hplus).
  assert (JS.parseInt (pretty_N_go (N.pos p) rest)
          = JS.digits None (pretty_N_go (N.pos p) rest)) as ->.
  { unfold JS.parseInt. rewrite E. simpl. rewrite Hws.
    destruct (pretty_N_char d) as [[] [] [] [] [] [] [] []];
      try reflexivity; congruence. }
  rewrite digits_pretty_N_go by lia. apply digits_stop. exact Hrest.
Qed.

Lemma append_empty_r (s : string) : s +:+ "" = s.
Proof.
  induction s as [|c s IH]; [reflexivity|].
  change (String c s +:+ "") with (String c (s +:+ "")). rewrite IH.
  reflexivity.
Qed.

Lemma digits_pretty_pos p rest :
  no_leading_digit rest = true ->
  JS.digits None (pretty (N.pos p) +:+ rest) = Some (Z.pos p).
Proof.
  intros Hrest. unfold pretty, pretty_N.
  destruct (decide (N.pos p = 0%N)) as [E | _]; [discriminate E|].
  rewrite pretty_N_go_app. change ("" +:+ rest) with rest.
  rewrite digits_pretty_N_go by lia. apply digits_stop. exact Hrest.
Qed.

Lemma parseInt_toString z : JS.parseInt (toString z) = Some z.
Proof.
  destruct z as [|p|p]; unfold toString, pretty, pretty_Z.
  - reflexivity.
  - rewrite <- (append_empty_r (pretty p)).
    apply parseInt_pretty_pos. reflexivity.
  - change ("-" +:+ pretty p) with (String "-" (pretty (N.pos p))).
    unfold JS.parseInt. simpl.
    rewrite <- (append_empty_r (pretty (N.pos p))).
    rewrite digits_pretty_pos by reflexivity. reflexivity.
Qed.

(** ** Configuration from the environment *)

(** X2: [getConfig] validates the limit first.  It throws the
    [RATE_LIMIT] error exactly when the limit is [NaN] or [<= 0], whatever
    the window; the [RATE_WINDOW_SEC] error exactly when the limit is
    positive and the window is [NaN] or [<= 0]; and it returns a config
    exactly when both parse to positive numbers, which are the fields of
    the config. *)
Theorem X2_getConfig_outcomes env :
  let l := JS.parseInt (nullish (RATE_LIMIT env) "5") in
  let w := JS.parseInt (nullish (RATE_WINDOW_SEC env) "60") in
  (getConfig env = Throw "RATE_LIMIT must be a positive number" <->
     l = None \/ le_zero l) /\
  (getConfig env = Throw "RATE_WINDOW_SEC must be a positive number" <->
     (exists lv, l = Some lv /\ 0 < lv) /\ (w = None \/ le_zero w)) /\
  (forall config,
     getConfig env = Return config <->
     l = Some (limit config) /\ w = Some (windowSec config) /\
     0 < limit config /\ 0 < windowSec config).
Proof.
  intros l w. unfold getConfig, le_zero. fold l w.
  destruct l as [lv|]; [destruct (Z.leb_spec lv 0) as [Hl | Hl]|].
  - split; [|split].
    + split; [intros _; right; eauto | reflexivity].
    + split; [discriminate|]. intros [(v & E & Hv) _]. injection E as <-. lia.
    + intros c. split; [discriminate|].
      intros (E & _ & Hc & _). injection E as ->. lia.
  - destruct w as [wv|]; [destruct (Z.leb_spec wv 0) as [Hw | Hw]|].
    + split; [|split].
      * split; [discriminate|].
        intros [E | (v & E & Hv)]; [discriminate E|]. injection E as <-. lia.
      * split; [intros _ | reflexivity]. split; eauto.
      * intros c. split; [discriminate|].
        intros (_ & E & _ & Hc). injection E as ->. lia.
    + split; [|split].
      * split; [discriminate|].
        intros [E | (v & E & Hv)]; [discriminate E|]. injection E as <-. lia.
      * split; [discriminate|].
        intros [_ [E | (v & E & Hv)]]; [discriminate E|].
        injection E as <-. lia.
      * intros [cl cw]. simpl. split.
        -- intros E. injection E as <- <-. auto.
        -- intros (E1 & E2 & _). injection E1 as <-. injection E2 as <-.
           reflexivity.
    + split; [|split].
      * split; [discriminate|].
        intros [E | (v & E & Hv)]; [discriminate E|]. injection E as <-. lia.
      * split; [intros _ | reflexivity]. split; eauto.
      * intros c. split; [discriminate|]. intros (_ & E & _). discriminate E.
  - split; [|split].
    + split; [auto | reflexivity].
    + split; [discriminate|]. intros [(v & E & _) _]. discriminate E.
    + intros c. split; [discriminate|]. intros (E & _). discriminate E.
Qed.

(** X3: an environment that holds the decimal renderings of a limit and a
    window length gives the factory exactly these numbers when both are
    positive (the custom config then overrides them field by field), and
    makes it throw otherwise, the limit being named first. *)
Theorem X3_factory_reads_environment l w customConfig :
  let env := {| RATE_LIMIT := Some (toString l);
                RATE_WINDOW_SEC := Some (toString w) |} in
  (0 < l -> 0 < w ->
   createRateLimiterMiddleware env customConfig
   = Return (middleware
               (spread {| limit := l; windowSec := w |} customConfig))) /\
  (l <= 0 ->
   createRateLimiterMiddleware env customConfig
   = Throw "RATE_LIMIT must be a positive number") /\
  (0 < l -> w <= 0 ->
   createRateLimiterMiddleware env customConfig
   = Throw "RATE_WINDOW_SEC must be a positive number").
Proof.
  intros env. unfold createRateLimiterMiddleware, getConfig. simpl.
  rewrite !parseInt_toString.
  destruct (Z.leb_spec l 0) as [Hl | Hl];
    [| destruct (Z.leb_spec w 0) as [Hw | Hw]];
    repeat split; intros; try lia; reflexivity.
Qed.

Lemma X3_factory_reads_environment_witness :
  createRateLimiterMiddleware
    {| RATE_LIMIT := Some (toString 10);
       RATE_WINDOW_SEC := Some (toString 120) |}
    (Some {| limit_opt := None; windowSec_opt := Some 30 |})
  = Return (middleware {| limit := 10; windowSec := 30 |}) /\
  createRateLimiterMiddleware
    {| RATE_LIMIT := Some (toString (-3));
       RATE_WINDOW_SEC := Some (toString 0) |} None
  = Throw "RATE_LIMIT must be a positive number" /\
  createRateLimiterMiddleware
    {| RATE_LIMIT := Some (toString 10);
       RATE_WINDOW_SEC := Some (toString 0) |} None
  = Throw "RATE_WINDOW_SEC must be a positive number".
Proof.
  split; [|split].
  - apply (X3_factory_reads_environment 10 120); lia.
  - apply (X3_factory_reads_environment (-3) 0); lia.
  - apply (X3_factory_reads_environment 10 0); lia.
Defined.

(** ** The cleanup *)

Lemma cleanup_cleanup t1 t2 store :
  cleanupExpiredEntries t2 (cleanupExpiredEntries t1 store)
  = cleanupExpiredEntries (Z.max t1 t2) store.
Proof.
  apply map_eq. intros k. apply option_eq. intros r.
  rewrite !cleanup_lookup_Some. split.
  - intros [[H1 H2] H3]. split; [exact H1 | lia].
  - intros [H1 H2]. repeat split; (exact H1 || lia).
Qed.

Lemma cleanup_subseteq now store : cleanupExpiredEntries now store ⊆ store.
Proof. apply map_filter_subseteq. Qed.

Lemma cleanup_size now store :
  (size (cleanupExpiredEntries now store) <= size store)%nat.
Proof. apply map_subseteq_size, cleanup_subseteq. Qed.

Lemma cleanup_id now store :
  cleanupExpiredEntries now store = store <->
  forall k r, store !! k = Some r -> now <= resetTime r.
Proof.
  split.
  - intros E k r Hk. rewrite <- E in Hk.
    apply cleanup_lookup_Some in Hk as [_ Hk]. exact Hk.
  - intros H. apply map_eq. intros k. apply option_eq. intros r.
    rewrite cleanup_lookup_Some. split; [intros [Hk _]; exact Hk|].
    intros Hk. split; [exact Hk | eapply H; exact Hk].
Qed.

(** X4: cleanups compose to the cleanup at the later time, whatever their
    order; so a cleanup is idempotent and two cleanups commute. *)
Theorem X4_cleanup_composes t1 t2 store :
  cleanupExpiredEntries t2 (cleanupExpiredEntries t1 store)
    = cleanupExpiredEntries (Z.max t1 t2) store /\
  cleanupExpiredEntries t1 (cleanupExpiredEntries t1 store)
    = cleanupExpiredEntries t1 store /\
  cleanupExpiredEntries t2 (cleanupExpiredEntries t1 store)
    = cleanupExpiredEntries t1 (cleanupExpiredEntries t2 store).
Proof.
  split; [apply cleanup_cleanup|]. split.
  - rewrite cleanup_cleanup, Z.max_id. reflexivity.
  - rewrite !cleanup_cleanup, Z.max_comm. reflexivity.
Qed.

(** X5: a cleanup only removes: what it leaves is part of the store with
    the records unchanged, there are no more keys than before, and it
    changes nothing exactly when no record has [resetTime < now]. *)
Theorem X5_cleanup_only_removes now store :
  cleanupExpiredEntries now store ⊆ store /\
  (size (cleanupExpiredEntries now store) <= size store)%nat /\
  (cleanupExpiredEntries now store = store <->
   forall k r, store !! k = Some r -> ~ resetTime r < now).
Proof.
  split; [apply cleanup_subseteq|]. split; [apply cleanup_size|].
  rewrite cleanup_id. split; intros H k r Hk; specialize (H k r Hk); lia.
Qed.

Lemma X5_cleanup_only_removes_witness :
  let store : RateLimitStore :=
    {[ "a" := {| count := 2; resetTime := 1000 |};
       "b" := {| count := 1; resetTime := 5000 |} ]} in
  cleanupExpiredEntries 1000 store = store.
Proof.
  intros store. apply (X5_cleanup_only_removes 1000 store).
  intros k r Hk.
  destruct (decide (k = "a")) as [-> | Ha];
    [| destruct (decide (k = "b")) as [-> | Hb]].
  - vm_compute in Hk. injection Hk as <-. simpl. lia.
  - vm_compute in Hk. injection Hk as <-. simpl. lia.
  - unfold store in Hk.
    rewrite lookup_insert_ne, lookup_singleton_ne in Hk by congruence.
    discriminate Hk.
Defined.

(** ** Statistics and resets *)

(** X6: without a request in between, the number of active users never
    grows from one [getRateLimitStats] to a later one, and asking again at
    the same time gives the same number and leaves the store as it is. *)
Theorem X6_stats_never_grow now now' store :
  now <= now' ->
  let first := getRateLimitStats now store in
  let second := getRateLimitStats now' first.2 in
  (activeUsers second.1 <= activeUsers first.1)%nat /\
  second.2 = cleanupExpiredEntries now' store /\
  getRateLimitStats now first.2 = first.
Proof.
  intros Hle first second. subst first second.
  unfold getRateLimitStats. simpl. split; [apply cleanup_size|]. split.
  - rewrite cleanup_cleanup. f_equal. lia.
  - rewrite cleanup_cleanup, Z.max_id. reflexivity.
Qed.

Lemma X6_stats_never_grow_witness :
  let store : RateLimitStore :=
    {[ "a" := {| count := 2; resetTime := 1000 |};
       "b" := {| count := 1; resetTime := 5000 |} ]} in
  (activeUsers (getRateLimitStats 2000 (getRateLimitStats 500 store).2).1
   <= activeUsers (getRateLimitStats 500 store).1)%nat.
Proof.
  intros store.
  apply (X6_stats_never_grow 500 2000 store). lia.
Defined.

(** X7: after [resetAllRateLimits] the statistics report no user at any
    time, and with a valid config the next request of every key is
    answered as a first request and is the only record of the store. *)
Theorem X7_reset_all config key now store :
  0 < limit config ->
  0 < windowSec config ->
  let store' := resetAllRateLimits store in
  getRateLimitStats now store'
    = ({| activeUsers := 0; totalEntries := 0 |}, ∅) /\
  (check config key now store').1
    = {| X_RateLimit_Limit := limit config;
         X_RateLimit_Remaining := limit config - 1;
         X_RateLimit_Reset := windowSec config;
         outcome := Next |} /\
  (check config key now store').2
    = {[ key := {| count := 1;
                   resetTime := now + windowSec config * 1000 |} ]}.
Proof.
  intros Hl Hw store'. subst store'. unfold resetAllRateLimits.
  assert (cleanupExpiredEntries now ∅ = ∅) as Hempty
    by apply map_filter_empty.
  split; [|split].
  - unfold getRateLimitStats. rewrite Hempty. reflexivity.
  - rewrite check_response; rewrite lookup_empty; simpl; [|lia].
    replace (now + windowSec config * 1000 - now)
      with (windowSec config * 1000) by lia.
    rewrite ceil_div_mul, Z.max_r by lia.
    destruct (Z.gtb_spec (0 + 1) (limit config)); [lia | reflexivity].
  - apply map_eq. intros k. destruct (decide (key = k)) as [<- | Hne].
    + rewrite check_lookup, lookup_empty, lookup_singleton_eq. reflexivity.
    + rewrite check_lookup_ne, Hempty, lookup_empty, lookup_singleton_ne
        by exact Hne. reflexivity.
Qed.

Lemma X7_reset_all_witness :
  let config := {| limit := 1; windowSec := 60 |} in
  let store := (checks config "u1" [0; 1; 2] ∅).2 in
  admitted (check config "u1" 3 store).1 = false /\
  admitted (check config "u1" 3 (resetAllRateLimits store)).1 = true /\
  activeUsers (getRateLimitStats 3 (resetAllRateLimits store)).1 = 0%nat.
Proof.
  intros config store.
  destruct (X7_reset_all config "u1" 3 store) as (H1 & H2 & _);
    [simpl; lia | simpl; lia |].
  split; [reflexivity|]. split.
  - rewrite H2. reflexivity.
  - rewrite H1. reflexivity.
Defined.

(** X8: a request adds at most one active user: right after it, at the
    same clock value, the statistics count the keys that were alive before
    it, plus one exactly when the requesting key had no live record. *)
Theorem X8_request_adds_one_user config key now store :
  0 <= windowSec config ->
  let before := activeUsers (getRateLimitStats now store).1 in
  let after :=
    activeUsers (getRateLimitStats now (check config key now store).2).1 in
  (cleanupExpiredEntries now store !! key = None -> after = S before) /\
  (is_Some (cleanupExpiredEntries now store !! key) -> after = before).
Proof.
  intros Hw before after. subst before after.
  unfold getRateLimitStats. simpl.
  assert (cleanupExpiredEntries now (check config key now store).2
          = (check config key now store).2) as ->.
  { apply cleanup_id. intros k r Hk.
    destruct (decide (key = k)) as [<- | Hne].
    - rewrite check_lookup in Hk. injection Hk as <-. simpl.
      apply current_live. exact Hw.
    - rewrite check_lookup_ne in Hk by exact Hne.
      apply cleanup_lookup_Some in Hk as [_ Hk]. exact Hk. }
  unfold check, middleware. simpl.
  split; intros Hkey; destruct (_ >? _); simpl.
  - apply map_size_insert_None. exact Hkey.
  - apply map_size_insert_None. exact Hkey.
  - apply map_size_insert_Some. exact Hkey.
  - apply map_size_insert_Some. exact Hkey.
Qed.

(** Two users, as in the statistics test. *)
Lemma X8_request_adds_one_user_witness :
  let config := {| limit := 5; windowSec := 60 |} in
  let store := (check config "a" 0 ∅).2 in
  activeUsers (getRateLimitStats 0 (check config "b" 0 store).2).1 = 2%nat /\
  activeUsers (getRateLimitStats 0 (check config "a" 0 store).2).1 = 1%nat.
Proof.
  intros config store.
  destruct (X8_request_adds_one_user config "b" 0 store) as [Hb _];
    [simpl; lia|].
  destruct (X8_request_adds_one_user config "a" 0 store) as [_ Ha];
    [simpl; lia|].
  split.
  - rewrite Hb; reflexivity.
  - rewrite Ha; [reflexivity | eexists; reflexivity].
Defined.

(** ** Stores reached by requests *)

Section Reachable.

Variable config : RateLimitConfig.
Hypothesis window_not_negative : 0 <= windowSec config.

Lemma within_window_empty now : within_window config now ∅.
Proof. intros k r Hk. rewrite lookup_empty in Hk. discriminate Hk. Qed.

(** The record a request is counted against, on a store that keeps the
    invariant. *)
Lemma counted_within_window now clock store userId :
  within_window config now store ->
  now <= at_request clock ->
  let cur := current config (at_request clock)
               (cleanupExpiredEntries (at_cleanup clock) store !! userId) in
  0 <= count cur /\
  at_request clock <= resetTime cur
                   <= at_request clock + windowSec config * 1000.
Proof.
  intros Hok Hle cur. subst cur. unfold current.
  destruct (cleanupExpiredEntries (at_cleanup clock) store !! userId)
    as [r|] eqn:Hk; simpl; [|lia].
  apply cleanup_lookup_Some in Hk as [Hk _].
  destruct (expired (at_request clock) r) eqn:E; simpl; [lia|].
  apply expired_false in E. destruct (Hok userId r Hk). lia.
Qed.

(** A pass of the middleware keeps the invariant, at the time it counted
    the request. *)
Lemma middleware_within_window now clock userId store :
  within_window config now store ->
  now <= at_request clock ->
  within_window config (at_request clock)
    (middleware config userId clock store).2.
Proof.
  intros Hok Hle k r Hk.
  destruct (decide (userId = k)) as [<- | Hne].
  - rewrite middleware_lookup in Hk. cbv zeta in Hk. injection Hk as <-.
    cbn [count resetTime].
    pose proof (counted_within_window now clock store userId Hok Hle) as Hcur.
    cbv zeta in Hcur. lia.
  - rewrite middleware_lookup_ne in Hk by exact Hne.
    apply cleanup_lookup_Some in Hk as [Hk _].
    destruct (Hok k r Hk). lia.
Qed.

(** The headers of a pass on a store that keeps the invariant. *)
Lemma middleware_bounds now clock userId store :
  within_window config now store ->
  now <= at_request clock ->
  at_request clock <= at_headers clock ->
  let res := (middleware config userId clock store).1 in
  X_RateLimit_Limit res = limit config /\
  0 <= X_RateLimit_Remaining res <= Z.max 0 (limit config) /\
  0 <= X_RateLimit_Reset res <= windowSec config.
Proof.
  intros Hok Hle Hth res. subst res.
  pose proof (counted_within_window now clock store userId Hok Hle) as Hcur.
  rewrite middleware_response. cbv zeta in Hcur |- *.
  cbn [X_RateLimit_Limit X_RateLimit_Remaining X_RateLimit_Reset].
  set (cur := current config (at_request clock) _) in *.
  destruct (Z.gtb_spec (at_headers clock) (resetTime cur)) as [Hstale | Hlive].
  - repeat split; lia.
  - pose proof (ceil_div_spec (resetTime cur - at_headers clock) 1000
                  ltac:(lia)).
    repeat split; lia.
Qed.

Lemma serve_length calls : forall store,
  length (serve config calls store).1 = length calls.
Proof.
  induction calls as [|[userId clock] calls IH]; intros store; simpl.
  - reflexivity.
  - destruct (middleware config userId clock store) as [res store1].
    specialize (IH store1).
    destruct (serve config calls store1) as [ress store2].
    simpl in *. rewrite IH. reflexivity.
Qed.

Lemma serve_bounds calls : forall now store,
  within_window config now store ->
  ticking now calls ->
  Forall (fun res =>
            X_RateLimit_Limit res = limit config /\
            0 <= X_RateLimit_Remaining res <= Z.max 0 (limit config) /\
            0 <= X_RateLimit_Reset res <= windowSec config)
         (serve config calls store).1 /\
  forall k r,
    (serve config calls store).2 !! k = Some r -> 1 <= count r.
Proof.
  induction calls as [|[userId clock] calls IH];
    intros now store Hok Hticks; simpl.
  - split; [constructor|]. intros k r Hk. apply (Hok k r Hk).
  - destruct Hticks as (Hle & Hth & Hticks).
    pose proof (middleware_bounds now clock userId store Hok Hle Hth) as Hres.
    pose proof (middleware_within_window now clock userId store Hok Hle)
      as Hok1.
    destruct (middleware config userId clock store) as [res store1].
    specialize (IH (at_request clock) store1 Hok1 Hticks).
    destruct (serve config calls store1) as [ress store2].
    simpl in *. destruct IH as [IH1 IH2].
    split; [constructor; assumption | exact IH2].
Qed.

End Reachable.

(** X9: serve any requests, of any users, each with its own three clock
    readings, starting from the empty store, with a window length that is
    not negative and a clock that goes back neither from the counting of
    a request to the computing of its headers nor from one request to the
    next.  Every one is answered, with the configured limit, a remaining
    quota between 0 and the limit (0 when the limit is not positive) and a
    reset time between 0 and [windowSec] seconds; and every record of the
    store has counted at least one request. *)
Theorem X9_responses_in_range config start calls :
  0 <= windowSec config ->
  ticking start calls ->
  let served := serve config calls ∅ in
  length served.1 = length calls /\
  Forall (fun res =>
            X_RateLimit_Limit res = limit config /\
            0 <= X_RateLimit_Remaining res <= Z.max 0 (limit config) /\
            0 <= X_RateLimit_Reset res <= windowSec config)
         served.1 /\
  forall k r, served.2 !! k = Some r -> 1 <= count r.
Proof.
  intros Hw Hticks served. subst served.
  split; [apply serve_length|].
  apply (serve_bounds config Hw _ start); [|exact Hticks].
  apply within_window_empty.
Qed.

(** Limit 1, window 1 s: the second request is counted at the last
    millisecond of the window and answered one millisecond later. *)
Lemma X9_responses_in_range_witness :
  let config := {| limit := 1; windowSec := 1 |} in
  let calls :=
    [("u1", mkClock 0 0 0); ("u2", mkClock 400 400 401);
     ("u1", mkClock 1000 1000 1001); ("u1", mkClock 1002 1002 1002)] in
  Forall (fun res =>
            X_RateLimit_Limit res = 1 /\
            0 <= X_RateLimit_Remaining res <= 1 /\
            0 <= X_RateLimit_Reset res <= 1)
         (serve config calls ∅).1.
Proof.
  intros config calls.
  destruct (X9_responses_in_range config 0 calls) as (_ & H & _).
  - simpl; lia.
  - simpl; lia.
  - exact H.
Defined.

(** X10: the window is fixed and every attempt is counted.  After a
    request that opens a window and [n] more requests of the same key up
    to and including the end of that window, the record holds the count
    [1 + n] -- also beyond the limit -- and the [resetTime] set by the
    first request. *)
Theorem X10_fixed_window_counts_all config key now times store :
  0 <= windowSec config ->
  (store !! key = None \/
   exists r, store !! key = Some r /\ resetTime r < now) ->
  Forall (fun t => t <= now + windowSec config * 1000) times ->
  (checks config key (now :: times) store).2 !! key
  = Some {| count := 1 + Z.of_nat (length times);
            resetTime := now + windowSec config * 1000 |}.
Proof.
  intros Hw Hfresh Hin. simpl.
  pose proof (check_lookup config key now store) as Hstore.
  rewrite (current_fresh config now _ Hfresh) in Hstore. simpl in Hstore.
  destruct (check config key now store) as [res1 store1]. simpl in Hstore.
  assert (forall ts s c,
            s !! key = Some {| count := c;
                               resetTime := now + windowSec config * 1000 |} ->
            Forall (fun t => t <= now + windowSec config * 1000) ts ->
            (checks config key ts s).2 !! key
            = Some {| count := c + Z.of_nat (length ts);
                      resetTime := now + windowSec config * 1000 |}) as Hgen.
  { induction ts as [|t ts IH]; intros s c Hs Hts; simpl.
    - rewrite Hs. do 2 f_equal. lia.
    - apply Forall_cons in Hts as [Ht Hts].
      pose proof (check_lookup config key t s) as Hs1.
      rewrite Hs, current_kept in Hs1 by exact Ht. simpl in Hs1.
      destruct (check config key t s) as [r1 s1]. simpl in Hs1.
      specialize (IH s1 (c + 1) Hs1 Hts).
      destruct (checks config key ts s1) as [rs s2]. simpl in *.
      rewrite IH. do 2 f_equal. lia. }
  specialize (Hgen times store1 1 Hstore Hin).
  destruct (checks config key times store1) as [ress store2]. exact Hgen.
Qed.

(** Limit 2, five requests in the first minute, the last at its very
    end: the count is 5. *)
Lemma X10_fixed_window_counts_all_witness :
  (checks {| limit := 2; windowSec := 60 |} "u1"
     [0; 100; 200; 300; 60000] ∅).2 !! "u1"
  = Some {| count := 5; resetTime := 60000 |}.
Proof.
  apply (X10_fixed_window_counts_all {| limit := 2; windowSec := 60 |} "u1" 0
           [100; 200; 300; 60000] ∅).
  - simpl; lia.
  - left. reflexivity.
  - repeat constructor; simpl; lia.
Defined.

(** ** What the clock readings of a pass can change *)

(** X11: whatever the config and the clock readings, on a store whose
    record for the user (if any) has a count that is not negative, the
    middleware reports the configured limit and a remaining quota that is
    never negative and never above the limit (0 for a limit that is not
    positive), and a request it does not pass on gets the 429 body
    [rate_limited]. *)
Theorem X11_remaining_never_negative config userId clock store :
  (forall r, store !! userId = Some r -> 0 <= count r) ->
  let res := (middleware config userId clock store).1 in
  X_RateLimit_Limit res = limit config /\
  0 <= X_RateLimit_Remaining res <= Z.max 0 (limit config) /\
  (admitted res = true \/
   outcome res
   = Status429 {| error := "rate_limited";
                  message := "Too many requests, please try again later." |}).
Proof.
  intros Hcount res. subst res. rewrite middleware_response. simpl.
  set (cur := current _ _ _).
  assert (0 <= count cur) as Hc.
  { subst cur. unfold current.
    destruct (cleanupExpiredEntries (at_cleanup clock) store !! userId)
      as [r|] eqn:E; simpl; [|lia].
    apply cleanup_lookup_Some in E as [E _].
    destruct (expired (at_request clock) r); simpl; [lia | auto]. }
  split; [reflexivity|]. split.
  - destruct (at_headers clock >? resetTime cur); lia.
  - unfold admitted. simpl.
    destruct (count cur + 1 >? limit config); auto.
Qed.

Lemma X11_remaining_never_negative_witness :
  let config := {| limit := 2; windowSec := 60 |} in
  let store : RateLimitStore :=
    {[ "u1" := {| count := 7; resetTime := 60000 |} ]} in
  let res := (middleware config "u1" (mkClock 10 20 30) store).1 in
  0 <= X_RateLimit_Remaining res <= 2 /\ admitted res = false.
Proof.
  intros config store res.
  destruct (X11_remaining_never_negative config "u1" (mkClock 10 20 30) store)
    as (_ & H & _).
  - intros r Hr. vm_compute in Hr. injection Hr as <-. simpl. lia.
  - split; [exact H | reflexivity].
Defined.

(** X12: when the cleanup does not read a later clock than the request,
    the clock readings of the cleanup and of the headers change neither
    the verdict nor the record that is stored: both are those of the
    request served at its own reading, and every other key sees the
    cleanup only. *)
Theorem X12_ticks_leave_verdict config userId clock store :
  at_cleanup clock <= at_request clock ->
  let served := middleware config userId clock store in
  let reference := check config userId (at_request clock) store in
  served.2 !! userId = reference.2 !! userId /\
  admitted served.1 = admitted reference.1 /\
  forall k, userId <> k ->
    served.2 !! k = cleanupExpiredEntries (at_cleanup clock) store !! k.
Proof.
  intros Hle served reference. subst served reference.
  split; [|split].
  - rewrite middleware_lookup, check_lookup. simpl.
    rewrite current_earlier_cleanup by exact Hle. reflexivity.
  - unfold check. rewrite !middleware_response. simpl.
    rewrite current_earlier_cleanup by exact Hle.
    rewrite current_cleanup. unfold admitted. simpl.
    destruct (_ >? limit config); reflexivity.
  - intros k Hne. apply middleware_lookup_ne. exact Hne.
Qed.

Lemma X12_ticks_leave_verdict_witness :
  let config := {| limit := 1; windowSec := 60 |} in
  let store : RateLimitStore :=
    {[ "u1" := {| count := 1; resetTime := 1000 |} ]} in
  admitted (middleware config "u1" (mkClock 999 1000 1001) store).1
  = admitted (check config "u1" 1000 store).1.
Proof.
  intros config store.
  apply (X12_ticks_leave_verdict config "u1" (mkClock 999 1000 1001) store).
  simpl. lia.
Defined.

(** X13: the headers can go stale.  When the window of the counted record
    is still open as the request is counted but has ended by the time the
    headers are computed, the request is counted in that window and judged
    on its count, while the headers show a full quota ([limit]) and a full
    window ([windowSec]). *)
Theorem X13_stale_headers config userId clock store r :
  store !! userId = Some r ->
  at_cleanup clock <= resetTime r ->
  at_request clock <= resetTime r ->
  resetTime r < at_headers clock ->
  (middleware config userId clock store).2 !! userId
    = Some {| count := count r + 1; resetTime := resetTime r |} /\
  (middleware config userId clock store).1
    = {| X_RateLimit_Limit := limit config;
         X_RateLimit_Remaining := Z.max 0 (limit config);
         X_RateLimit_Reset := windowSec config;
         outcome :=
           if count r + 1 >? limit config
           then Status429
                  {| error := "rate_limited";
                     message :=
                       "Too many requests, please try again later." |}
           else Next |}.
Proof.
  intros Hr Hc Hq Hh.
  assert (cleanupExpiredEntries (at_cleanup clock) store !! userId = Some r)
    as Hclean by (apply cleanup_lookup_Some; auto).
  rewrite middleware_lookup, middleware_response. simpl.
  rewrite Hclean, current_kept by exact Hq.
  assert ((at_headers clock >? resetTime r) = true) as ->
    by (rewrite Z.gtb_ltb; apply Z.ltb_lt; exact Hh).
  split; reflexivity.
Qed.

(** A second request, counted at the last millisecond of the window,
    rejected, and answered with 1 remaining of a limit of 1. *)
Lemma X13_stale_headers_witness :
  let config := {| limit := 1; windowSec := 60 |} in
  let store : RateLimitStore :=
    {[ "u1" := {| count := 1; resetTime := 1000 |} ]} in
  let res := (middleware config "u1" (mkClock 1000 1000 1001) store).1 in
  admitted res = false /\
  X_RateLimit_Remaining res = 1 /\ X_RateLimit_Reset res = 60.
Proof.
  intros config store res.
  destruct (X13_stale_headers config "u1" (mkClock 1000 1000 1001) store
              {| count := 1; resetTime := 1000 |}) as [_ H];
    [reflexivity | simpl; lia | simpl; lia | simpl; lia |].
  subst res. rewrite H. repeat split.
Defined.

(** ** Resetting one key among others *)

(** X14: [resetUserRateLimit] of one key leaves every other key's next
    response as it was, commutes with the cleanup, and undoes a request
    of the key up to the cleanup that request made. *)
Theorem X14_reset_frames config userId key now store :
  userId <> key ->
  (check config key now (resetUserRateLimit userId store)).1
    = (check config key now store).1 /\
  cleanupExpiredEntries now (resetUserRateLimit userId store)
    = resetUserRateLimit userId (cleanupExpiredEntries now store) /\
  resetUserRateLimit userId (check config userId now store).2
    = resetUserRateLimit userId (cleanupExpiredEntries now store).
Proof.
  intros Hne. unfold resetUserRateLimit. split; [|split].
  - apply check_response_congr. rewrite lookup_delete_ne by exact Hne.
    reflexivity.
  - unfold cleanupExpiredEntries. apply map_filter_delete.
  - unfold check, middleware. simpl.
    destruct (_ >? _); simpl; apply delete_insert_eq.
Qed.

Lemma X14_reset_frames_witness :
  let config := {| limit := 1; windowSec := 60 |} in
  let store := (requests config [("a", 0); ("b", 0)] ∅).2 in
  admitted (check config "b" 1 (resetUserRateLimit "a" store)).1 = false.
Proof.
  intros config store.
  destruct (X14_reset_frames config "a" "b" 1 store) as (H & _);
    [discriminate|].
  rewrite H. reflexivity.
Defined.

(** ** Resolving the user of a request *)

Lemma truthy_Some v s : truthy v = Some s -> v = Some s /\ s <> "".
Proof.
  destruct v as [s'|]; simpl; [|discriminate].
  destruct (decide (s' = "")) as [E | E]; [discriminate|].
  intros H. injection H as <-. auto.
Qed.

Lemma truthy_of_Some s : s <> "" -> truthy (Some s) = Some s.
Proof.
  intros H. simpl. destruct (decide (s = "")); [contradiction | reflexivity].
Qed.

(** [getUserId], case by case. *)
Lemma getUserId_unfold host uuid w :
  getUserId host uuid w =
  match truthy (req_userId (w_req w)) with
  | Some userId => (Return userId, w)
  | None =>
      match truthy (req_cookies (w_req w) ≫= (.!! "userId")) with
      | Some existingUserId =>
          (Return existingUserId,
           {| w_store := w_store w;
              w_req := {| req_userId := Some existingUserId;
                          req_cookies := req_cookies (w_req w) |};
              w_res := w_res w |})
      | None =>
          let req := {| req_userId := Some uuid;
                        req_cookies := req_cookies (w_req w) |} in
          match cookie_throws host with
          | Some e =>
              (Throw e,
               {| w_store := w_store w; w_req := req; w_res := w_res w |})
          | None =>
              (Return uuid,
               {| w_store := w_store w; w_req := req;
                  w_res :=
                    {| cookies_set :=
                         {| cookie_name := "userId"; cookie_value := uuid;
                            cookie_options :=
                              {| maxAge := 86400000; httpOnly := true;
                                 sameSite := "lax" |} |}
                         :: cookies_set (w_res w);
                       headers_set := headers_set (w_res w);
                       status_set := status_set (w_res w);
                       json_sent := json_sent (w_res w);
                       next_calls := next_calls (w_res w);
                       errors_logged := errors_logged (w_res w) |} |})
          end
      end
  end.
Proof.
  cbv [getUserId mbind M_bind mret M_ret get_req set_req_userId
       res_cookie call throw].
  destruct (truthy (req_userId (w_req w))); [reflexivity|].
  destruct (truthy (option_bind _ _ _ _)); [reflexivity|].
  destruct (cookie_throws host); reflexivity.
Qed.

(** X15: the id [getUserId] returns is the [userId] property of the
    request when that is a non-empty string, else its [userId] cookie when
    that is one, else the generated uuid; with a non-empty uuid it is never
    the empty string.  The store is not touched, the id is left on the
    request, and every later pass over the request -- whatever its uuid
    and response object -- returns the same id and changes nothing. *)
Theorem X15_getUserId_stable host uuid w userId w' :
  uuid <> "" ->
  getUserId host uuid w = (Return userId, w') ->
  userId = resolved uuid (w_req w) /\
  userId <> "" /\
  w_store w' = w_store w /\
  req_userId (w_req w') = Some userId /\
  forall host' uuid', getUserId host' uuid' w' = (Return userId, w').
Proof.
  intros Huuid Hget. rewrite getUserId_unfold in Hget. unfold resolved.
  assert (forall w1, req_userId (w_req w1) = Some userId -> userId <> "" ->
            forall host' uuid',
              getUserId host' uuid' w1 = (Return userId, w1)) as Hagain.
  { intros w1 H1 H2 host' uuid'. rewrite getUserId_unfold, H1.
    rewrite truthy_of_Some by exact H2. reflexivity. }
  destruct (truthy (req_userId (w_req w))) as [id|] eqn:E1.
  - injection Hget as <- <-. apply truthy_Some in E1 as [E1 Hne].
    repeat split; auto.
  - destruct (truthy (req_cookies (w_req w) ≫= (.!! "userId"))) as [id|] eqn:E2.
    + injection Hget as <- <-. apply truthy_Some in E2 as [E2 Hne].
      repeat split; auto.
    + simpl in Hget. destruct (cookie_throws host); [discriminate Hget|].
      injection Hget as <- <-. repeat split; auto.
Qed.

Lemma X15_getUserId_stable_witness :
  let w := {| w_store := ∅;
              w_req := {| req_userId := Some "";
                          req_cookies := Some {[ "userId" := "from-cookie" ]} |};
              w_res := untouched |} in
  let w' := {| w_store := ∅;
               w_req := {| req_userId := Some "from-cookie";
                           req_cookies := Some {[ "userId" := "from-cookie" ]} |};
               w_res := untouched |} in
  getUserId sound_host "uuid-1" w = (Return "from-cookie", w') /\
  forall host' uuid', getUserId host' uuid' w' = (Return "from-cookie", w').
Proof.
  intros w w'.
  assert (getUserId sound_host "uuid-1" w = (Return "from-cookie", w')) as H
    by reflexivity.
  split; [exact H|].
  apply (X15_getUserId_stable sound_host "uuid-1" w "from-cookie" w');
    [discriminate | exact H].
Defined.

(** X16: [getUserId] sets a cookie only for a request that carries no
    id: then it is the one cookie [userId] with the generated uuid,
    [maxAge] 24 hours in milliseconds, [httpOnly], [sameSite] lax.  For a
    request with a non-empty [userId] property or [userId] cookie no
    cookie is set and nothing else of the response is touched. *)
Theorem X16_cookie_only_when_generated host uuid w userId w' :
  getUserId host uuid w = (Return userId, w') ->
  (truthy (req_userId (w_req w)) = None ->
   truthy (req_cookies (w_req w) ≫= (.!! "userId")) = None ->
   userId = uuid /\
   cookies_set (w_res w')
   = {| cookie_name := "userId"; cookie_value := uuid;
        cookie_options :=
          {| maxAge := 24 * 3600 * 1000; httpOnly := true;
             sameSite := "lax" |} |}
     :: cookies_set (w_res w)) /\
  (truthy (req_userId (w_req w)) <> None \/
   truthy (req_cookies (w_req w) ≫= (.!! "userId")) <> None ->
   w_res w' = w_res w).
Proof.
  intros Hget. rewrite getUserId_unfold in Hget.
  destruct (truthy (req_userId (w_req w))) as [id|] eqn:E1.
  - injection Hget as <- <-. split; [discriminate | reflexivity].
  - destruct (truthy (req_cookies (w_req w) ≫= (.!! "userId"))) as [id|] eqn:E2.
    + injection Hget as <- <-. split; [discriminate | reflexivity].
    + simpl in Hget. destruct (cookie_throws host); [discriminate Hget|].
      injection Hget as <- <-. split.
      * intros _ _. split; reflexivity.
      * intros [H | H]; contradiction.
Qed.

Lemma X16_cookie_only_when_generated_witness :
  let w := {| w_store := ∅;
              w_req := {| req_userId := None; req_cookies := None |};
              w_res := untouched |} in
  exists w',
    getUserId sound_host "uuid-1" w = (Return "uuid-1", w') /\
    cookies_set (w_res w')
    = [ {| cookie_name := "userId"; cookie_value := "uuid-1";
           cookie_options :=
             {| maxAge := 86400000; httpOnly := true; sameSite := "lax" |} |} ].
Proof.
  intros w. exists (getUserId sound_host "uuid-1" w).2.
  split; [reflexivity|].
  eapply (X16_cookie_only_when_generated sound_host "uuid-1" w "uuid-1");
    reflexivity.
Defined.


(** ** The handler *)

(** The handler is the resolution of the user, then the middleware on the
    resolved id, then the writing of its response under the [catch]. *)
Lemma handle_unfold config host uuid clock req store :
  handle config host uuid clock req store =
  match getUserId host uuid
          {| w_store := cleanupExpiredEntries (at_cleanup clock) store;
             w_req := req; w_res := untouched |} with
  | (Throw e, w) => ((console_error e;; next) w).2
  | (Return userId, w) =>
      let served := middleware config userId clock store in
      (respond host served.1
         {| w_store := served.2; w_req := w_req w; w_res := w_res w |}).2
  end.
Proof.
  unfold handle, rateLimiter, respond.
  cbv beta iota zeta delta [try_catch mbind M_bind mret M_ret get_store
                            put_store w_store w_req w_res].
  rewrite getUserId_unfold.
  cbv beta iota zeta delta [w_store w_req w_res].
  destruct (truthy (req_userId req)) as [id|];
    [| destruct (truthy (req_cookies req ≫= (.!! "userId"))) as [id|];
       [| destruct (cookie_throws host) as [e|]; [reflexivity|] ] ];
    unfold middleware;
    cbv beta iota zeta delta [at_cleanup at_request at_headers];
    match goal with
    | |- context [?x >? limit config] => destruct (x >? limit config)
    end;
    cbv beta iota zeta delta [res_setHeader res_status res_json next
                              console_error call throw admitted outcome
                              X_RateLimit_Limit X_RateLimit_Remaining
                              X_RateLimit_Reset fst snd];
    destruct (setHeader_throws host "X-RateLimit-Limit");
    try reflexivity;
    destruct (setHeader_throws host "X-RateLimit-Remaining");
    try reflexivity;
    destruct (setHeader_throws host "X-RateLimit-Reset");
    try reflexivity;
    destruct (status_throws host); try reflexivity;
    destruct (json_throws host); reflexivity.
Qed.

(** One reduction step of writing the response, after the response
    object has answered a call. *)
Ltac run_respond :=
  cbv beta iota zeta delta [try_catch mbind M_bind mret M_ret res_setHeader
                            res_status res_json next console_error call
                            throw fst snd w_store w_req w_res cookies_set
                            headers_set status_set json_sent next_calls
                            errors_logged].

(** Every way the writing of the response can go on [host]. *)
Ltac respond_cases host res :=
  run_respond;
  destruct (setHeader_throws host "X-RateLimit-Limit"); run_respond;
  [| destruct (setHeader_throws host "X-RateLimit-Remaining"); run_respond;
     [| destruct (setHeader_throws host "X-RateLimit-Reset"); run_respond;
        [| destruct (admitted res); run_respond;
           [| destruct (status_throws host); run_respond;
              [| destruct (json_throws host); run_respond ] ] ] ] ].

(** Writing the response changes neither the store nor the request. *)
Lemma respond_frame host res w :
  w_store (respond host res w).2 = w_store w /\
  w_req (respond host res w).2 = w_req w /\
  cookies_set (w_res (respond host res w).2) = cookies_set (w_res w).
Proof.
  unfold respond.
  generalize (toString (X_RateLimit_Limit res))
             (toString (X_RateLimit_Remaining res))
             (toString (X_RateLimit_Reset res)).
  intros h1 h2 h3. destruct w as [store0 req0 [cs hs ss js ns es]].
  respond_cases host res; repeat split; reflexivity.
Qed.

(** Writing the response with methods that do not throw. *)
Lemma respond_sound res w :
  w_res (respond sound_host res w).2
  = {| cookies_set := cookies_set (w_res w);
       headers_set :=
         ("X-RateLimit-Reset", toString (X_RateLimit_Reset res))
         :: ("X-RateLimit-Remaining", toString (X_RateLimit_Remaining res))
         :: ("X-RateLimit-Limit", toString (X_RateLimit_Limit res))
         :: headers_set (w_res w);
       status_set := if admitted res then status_set (w_res w) else Some 429;
       json_sent :=
         if admitted res then json_sent (w_res w)
         else Some {| error := "rate_limited";
                      message :=
                        "Too many requests, please try again later." |};
       next_calls :=
         if admitted res then S (next_calls (w_res w))
         else next_calls (w_res w);
       errors_logged := errors_logged (w_res w) |}.
Proof.
  unfold respond.
  generalize (toString (X_RateLimit_Limit res))
             (toString (X_RateLimit_Remaining res))
             (toString (X_RateLimit_Reset res)).
  intros h1 h2 h3. destruct w as [store0 req0 [cs hs ss js ns es]].
  cbv beta iota zeta delta [sound_host setHeader_throws status_throws
                            json_throws res_setHeader res_status res_json].
  run_respond.
  destruct (admitted res); run_respond; reflexivity.
Qed.

(** Writing the response on a response object that has seen no verdict
    and no error yet: the request is passed on once, or it is stopped by
    a complete 429 reply; an error is logged at most once and then the
    request is passed on without a body. *)
Lemma respond_fail_open host res w :
  next_calls (w_res w) = 0%nat ->
  errors_logged (w_res w) = [] ->
  json_sent (w_res w) = None ->
  let r := w_res (respond host res w).2 in
  (next_calls r = 1%nat /\ json_sent r = None /\
   (errors_logged r = [] /\ admitted res = true \/
    exists e, errors_logged r = [e]) \/
   next_calls r = 0%nat /\ errors_logged r = [] /\ admitted res = false /\
   status_set r = Some 429 /\
   json_sent r
   = Some {| error := "rate_limited";
             message := "Too many requests, please try again later." |} /\
   length (headers_set r) = (3 + length (headers_set (w_res w)))%nat).
Proof.
  intros Hn He Hj.
  unfold respond.
  generalize (toString (X_RateLimit_Limit res))
             (toString (X_RateLimit_Remaining res))
             (toString (X_RateLimit_Reset res)).
  intros h1 h2 h3. destruct w as [store0 req0 [cs hs ss js ns es]].
  cbv beta iota delta [w_res next_calls errors_logged json_sent] in Hn, He, Hj.
  subst ns es js.
  respond_cases host res;
    first [ right; repeat split; reflexivity
          | left; split; [reflexivity|]; split; [reflexivity|];
            first [ left; split; reflexivity | right; eexists; reflexivity ] ].
Qed.

(** The headers a pass of the handler writes on a response object that
    does not throw. *)
Lemma handle_sound_headers config uuid clock req store :
  let served := (middleware config (resolved uuid req) clock store).1 in
  headers_set (w_res (handle config sound_host uuid clock req store))
  = [("X-RateLimit-Reset", toString (X_RateLimit_Reset served));
     ("X-RateLimit-Remaining", toString (X_RateLimit_Remaining served));
     ("X-RateLimit-Limit", toString (X_RateLimit_Limit served))].
Proof.
  intros served. subst served.
  rewrite handle_unfold, getUserId_unfold. unfold resolved.
  cbn [w_store w_req w_res].
  change (cookie_throws sound_host) with (@None string).
  destruct (truthy (req_userId req)) as [id|];
    [| destruct (truthy (req_cookies req ≫= (.!! "userId"))) as [id|] ];
    cbv beta iota zeta; rewrite respond_sound; reflexivity.
Qed.

(** X1: what the handler writes can be read back.  On a response object
    that does not throw, each of the three headers of a pass, parsed with
    [parseInt], is the number the middleware computed for the resolved
    user, as long as these numbers are within [Number.MAX_SAFE_INTEGER]
    in magnitude. *)
Theorem X1_headers_read_back config uuid clock req store :
  let served := (middleware config (resolved uuid req) clock store).1 in
  Z.abs (X_RateLimit_Limit served) <= MAX_SAFE_INTEGER ->
  Z.abs (X_RateLimit_Remaining served) <= MAX_SAFE_INTEGER ->
  Z.abs (X_RateLimit_Reset served) <= MAX_SAFE_INTEGER ->
  map (fun header => (header.1, JS.parseInt header.2))
    (headers_set (w_res (handle config sound_host uuid clock req store)))
  = [("X-RateLimit-Reset", Some (X_RateLimit_Reset served));
     ("X-RateLimit-Remaining", Some (X_RateLimit_Remaining served));
     ("X-RateLimit-Limit", Some (X_RateLimit_Limit served))].
Proof.
  intros served _ _ _. subst served.
  rewrite handle_sound_headers. cbn [map fst snd].
  rewrite !parseInt_toString. reflexivity.
Qed.

(** The first request of a new user with the default limit and window. *)
Lemma X1_headers_read_back_witness :
  let config := {| limit := 5; windowSec := 60 |} in
  let req := {| req_userId := None; req_cookies := Some ∅ |} in
  map (fun header => (header.1, JS.parseInt header.2))
    (headers_set
       (w_res (handle config sound_host "uuid-1" (mkClock 0 0 0) req ∅)))
  = [("X-RateLimit-Reset", Some 60); ("X-RateLimit-Remaining", Some 4);
     ("X-RateLimit-Limit", Some 5)].
Proof.
  intros config req.
  pose proof (X1_headers_read_back config "uuid-1" (mkClock 0 0 0) req ∅)
    as H.
  cbv zeta in H. rewrite H; [reflexivity | vm_compute; discriminate ..].
Defined.

(** X17: with a response object that does not throw, one pass of the
    handler is the middleware on the resolved user id: the store it leaves
    is the middleware's, the three headers are the decimal renderings of
    the middleware's values, written in the order limit, remaining, reset,
    nothing is logged, and [next] is called once for an admitted request
    and not at all for a rejected one, which gets status 429 and the
    [rate_limited] body.  The id is left on the request. *)
Theorem X17_handler_is_middleware config uuid clock req store :
  let userId := resolved uuid req in
  let served := middleware config userId clock store in
  let w := handle config sound_host uuid clock req store in
  w_store w = served.2 /\
  req_userId (w_req w) = Some userId /\
  req_cookies (w_req w) = req_cookies req /\
  headers_set (w_res w)
  = [("X-RateLimit-Reset", toString (X_RateLimit_Reset served.1));
     ("X-RateLimit-Remaining", toString (X_RateLimit_Remaining served.1));
     ("X-RateLimit-Limit", toString (X_RateLimit_Limit served.1))] /\
  errors_logged (w_res w) = [] /\
  (if admitted served.1
   then next_calls (w_res w) = 1%nat /\
        status_set (w_res w) = None /\ json_sent (w_res w) = None
   else next_calls (w_res w) = 0%nat /\
        status_set (w_res w) = Some 429 /\
        json_sent (w_res w)
        = Some {| error := "rate_limited";
                  message :=
                    "Too many requests, please try again later." |}).
Proof.
  intros userId served w. subst userId served w.
  rewrite handle_unfold, getUserId_unfold. unfold resolved.
  cbn [w_store w_req w_res].
  change (cookie_throws sound_host) with (@None string).
  destruct (truthy (req_userId req)) as [id|] eqn:E1;
    [apply truthy_Some in E1 as [E1 _]
    | destruct (truthy (req_cookies req ≫= (.!! "userId"))) as [id|] ];
    cbv beta iota zeta;
    match goal with
    | |- context [respond sound_host ?r ?w0] =>
        destruct (respond_frame sound_host r w0) as (Hs & Hr & _);
        pose proof (respond_sound r w0) as Hres;
        rewrite Hs, Hr, Hres
    end;
    cbv beta iota zeta delta [w_store w_req w_res req_userId req_cookies
                              headers_set errors_logged next_calls
                              status_set json_sent untouched];
    (repeat split; try reflexivity; try assumption);
    destruct (admitted _); repeat split; reflexivity.
Qed.

(** X18: the handler fails open.  Whatever the response object throws,
    one pass either calls [next] exactly once, or calls it not at all and
    then has sent the complete 429 reply -- status, [rate_limited] body
    and all three headers -- without any error.  At most one error is
    logged, and a request with a logged error is passed on with no body
    sent. *)
Theorem X18_handler_fails_open config host uuid clock req store :
  let r := w_res (handle config host uuid clock req store) in
  (next_calls r = 1%nat /\ json_sent r = None /\
   (errors_logged r = [] \/ exists e, errors_logged r = [e])) \/
  (next_calls r = 0%nat /\ errors_logged r = [] /\
   status_set r = Some 429 /\
   json_sent r
   = Some {| error := "rate_limited";
             message := "Too many requests, please try again later." |} /\
   length (headers_set r) = 3%nat).
Proof.
  intros r. subst r.
  rewrite handle_unfold, getUserId_unfold. cbn [w_store w_req w_res].
  assert (forall res w,
            next_calls (w_res w) = 0%nat -> errors_logged (w_res w) = [] ->
            json_sent (w_res w) = None -> headers_set (w_res w) = [] ->
            let r := w_res (respond host res w).2 in
            (next_calls r = 1%nat /\ json_sent r = None /\
             (errors_logged r = [] \/ exists e, errors_logged r = [e])) \/
            (next_calls r = 0%nat /\ errors_logged r = [] /\
             status_set r = Some 429 /\
             json_sent r
             = Some {| error := "rate_limited";
                       message :=
                         "Too many requests, please try again later." |} /\
             length (headers_set r) = 3%nat)) as Hrespond.
  { intros res w Hn He Hj Hh r.
    destruct (respond_fail_open host res w Hn He Hj)
      as [(H1 & H2 & H3) | (H1 & H2 & _ & H4 & H5 & H6)].
    - left. split; [exact H1|]. split; [exact H2|].
      destruct H3 as [[H3 _] | H3]; auto.
    - right. rewrite Hh in H6. repeat split; assumption. }
  destruct (truthy (req_userId req)) as [id|];
    [| destruct (truthy (req_cookies req ≫= (.!! "userId"))) as [id|];
       [| destruct (cookie_throws host) as [e|] ] ];
    cbv beta iota zeta;
    try (apply Hrespond; reflexivity).
  left. repeat split; try reflexivity. right. eexists. reflexivity.
Qed.

(** X19: a request whose user was resolved is counted whatever happens
    to its response: the store the handler leaves is the middleware's for
    every behaviour of [setHeader], [status] and [json].  Only a [cookie]
    call that throws, for a request that carries no id, leaves the request
    uncounted: the store is then the cleaned one, the generated id stays
    on the request, one error is logged and [next] is called. *)
Theorem X19_counted_despite_errors config host uuid clock req store :
  let w := handle config host uuid clock req store in
  (cookie_throws host = None \/
   truthy (req_userId req) <> None \/
   truthy (req_cookies req ≫= (.!! "userId")) <> None ->
   w_store w = (middleware config (resolved uuid req) clock store).2 /\
   req_userId (w_req w) = Some (resolved uuid req)) /\
  (forall e,
     cookie_throws host = Some e ->
     truthy (req_userId req) = None ->
     truthy (req_cookies req ≫= (.!! "userId")) = None ->
     w_store w = cleanupExpiredEntries (at_cleanup clock) store /\
     req_userId (w_req w) = Some uuid /\
     w_res w
     = {| cookies_set := []; headers_set := []; status_set := None;
          json_sent := None; next_calls := 1; errors_logged := [e] |}).
Proof.
  intros w. subst w.
  rewrite handle_unfold, getUserId_unfold. unfold resolved.
  cbn [w_store w_req w_res].
  destruct (truthy (req_userId req)) as [id|] eqn:E1;
    [apply truthy_Some in E1 as [E1 _]
    | destruct (truthy (req_cookies req ≫= (.!! "userId"))) as [id|];
      [| destruct (cookie_throws host) as [e|] ] ];
    cbv beta iota zeta;
    try match goal with
    | |- context [respond host ?r ?w0] =>
        destruct (respond_frame host r w0) as (Hs & Hr & _);
        rewrite Hs, Hr
    end;
    (split; [intros H | intros e' H1 H2 H3]);
    try discriminate; try (split; [reflexivity | assumption || reflexivity]).
  - destruct H as [H | [H | H]]; [discriminate H | contradiction ..].
  - injection H1 as <-. repeat split; reflexivity.
Qed.

Lemma X19_counted_despite_errors_witness :
  let config := {| limit := 5; windowSec := 60 |} in
  let broken :=
    {| cookie_throws := None;
       setHeader_throws := fun _ => Some "Header error";
       status_throws := None; json_throws := None |} in
  let req := {| req_userId := None; req_cookies := Some ∅ |} in
  let w := handle config broken "uuid-1" (mkClock 0 0 0) req ∅ in
  w_store w !! "uuid-1" = Some {| count := 1; resetTime := 60000 |} /\
  next_calls (w_res w) = 1%nat /\
  errors_logged (w_res w) = ["Header error"].
Proof.
  intros config broken req w.
  destruct (X19_counted_despite_errors config broken "uuid-1" (mkClock 0 0 0)
              req ∅) as [H _].
  destruct H as [H _]; [left; reflexivity|].
  fold w in H. rewrite H. repeat split; reflexivity.
Defined.

(** X20: a request object that went through the handler once keeps its
    user.  With a non-empty uuid, the id resolved on the first pass is on
    the request afterwards, whatever was thrown; and every later pass over
    that request -- with any config, response object, uuid, clock and
    store -- resolves the same id, leaves the request as it is, sets no
    cookie and counts the request under that id. *)
Theorem X20_request_keeps_its_user config host uuid clock req store :
  uuid <> "" ->
  let userId := resolved uuid req in
  let w := handle config host uuid clock req store in
  req_userId (w_req w) = Some userId /\
  userId <> "" /\
  forall config' host' uuid' clock' store',
    let w' := handle config' host' uuid' clock' (w_req w) store' in
    resolved uuid' (w_req w) = userId /\
    w_req w' = w_req w /\
    cookies_set (w_res w') = [] /\
    w_store w' = (middleware config' userId clock' store').2.
Proof.
  intros Huuid userId w.
  assert (req_userId (w_req w) = Some userId /\ userId <> "") as [Hid Hne].
  { subst userId w. rewrite handle_unfold, getUserId_unfold. unfold resolved.
    cbn [w_store w_req w_res].
    destruct (truthy (req_userId req)) as [id|] eqn:E1;
      [apply truthy_Some in E1 as [E1 Hne]
      | destruct (truthy (req_cookies req ≫= (.!! "userId"))) as [id|] eqn:E2;
        [apply truthy_Some in E2 as [E2 Hne]
        | destruct (cookie_throws host) as [e|] ] ];
      cbv beta iota zeta;
      try match goal with
      | |- context [respond host ?r ?w0] =>
          destruct (respond_frame host r w0) as (_ & Hr & _); rewrite Hr
      end;
      split; (assumption || reflexivity). }
  split; [exact Hid|]. split; [exact Hne|].
  intros config' host' uuid' clock' store' w'. subst w'.
  rewrite handle_unfold, getUserId_unfold. unfold resolved.
  cbn [w_store w_req w_res].
  rewrite Hid, (truthy_of_Some userId Hne).
  cbv beta iota zeta.
  match goal with
  | |- context [respond host' ?r ?w0] =>
      destruct (respond_frame host' r w0) as (Hs & Hr & Hc);
      rewrite Hs, Hr, Hc
  end.
  repeat split; reflexivity.
Qed.

(** The request object of the test suite, served twice: the second pass
    is counted under the id generated on the first. *)
Lemma X20_request_keeps_its_user_witness :
  let config := {| limit := 1; windowSec := 60 |} in
  let req := {| req_userId := None; req_cookies := Some ∅ |} in
  let w := handle config sound_host "uuid-1" (mkClock 0 0 0) req ∅ in
  let w' := handle config sound_host "uuid-2" (mkClock 5 5 5) (w_req w)
              (w_store w) in
  req_userId (w_req w') = Some "uuid-1" /\
  w_store w' !! "uuid-1" = Some {| count := 2; resetTime := 60000 |} /\
  w_store w' !! "uuid-2" = None.
Proof.
  intros config req w w'.
  destruct (X20_request_keeps_its_user config sound_host "uuid-1"
              (mkClock 0 0 0) req ∅) as (H1 & _ & H3); [discriminate|].
  destruct (H3 config sound_host "uuid-2" (mkClock 5 5 5) (w_store w))
    as (_ & H4 & _ & H5).
  fold w in H1, H4, H5. fold w' in H4, H5.
  rewrite H4, H5. split; [exact H1|]. split; reflexivity.
Defined.

(** ** One key among the requests of all *)

Section Interleaved.

Variable config : RateLimitConfig.
Variable key : string.

(** Two stores that a request of [key] cannot tell apart from [start]
    on. *)
Let alike (start : Z) (store1 store2 : RateLimitStore) : Prop :=
  forall now, start <= now ->
    current config now (store1 !! key) = current config now (store2 !! key).

Lemma answers_alike calls : forall start store1 store2,
  alike start store1 store2 ->
  nondecreasing start calls ->
  answers_to key calls (requests config calls store1).1
  = (checks config key (times_of key calls) store2).1.
Proof.
  induction calls as [|[k t] calls IH]; intros start store1 store2 Hal Hmono.
  - reflexivity.
  - destruct Hmono as [Hle Hmono]. simpl.
    destruct (decide (k = key)) as [-> | Hne].
    + simpl.
      pose proof (check_response_congr config key t store1 store2
                    (Hal t Hle)) as Hres.
      pose proof (check_lookup config key t store1) as H1.
      pose proof (check_lookup config key t store2) as H2.
      rewrite (Hal t Hle) in H1.
      destruct (check config key t store1) as [res1 s1].
      destruct (check config key t store2) as [res2 s2].
      simpl in Hres, H1, H2. subst res2.
      assert (alike t s1 s2) as Hal'
        by (intros now _; rewrite H1, H2; reflexivity).
      specialize (IH t s1 s2 Hal' Hmono).
      destruct (requests config calls s1) as [ress1 s1'].
      destruct (checks config key (times_of key calls) s2) as [ress2 s2'].
      simpl in *. rewrite ?decide_True by reflexivity. rewrite IH.
      reflexivity.
    + pose proof (check_lookup_ne config k key t store1 Hne) as H1.
      destruct (check config k t store1) as [res1 s1]. simpl in H1.
      assert (alike t s1 store2) as Hal'.
      { intros now Hnow. rewrite H1.
        rewrite current_earlier_cleanup by exact Hnow.
        apply Hal. lia. }
      specialize (IH t s1 store2 Hal' Hmono).
      destruct (requests config calls s1) as [ress1 s1'].
      simpl in *. rewrite ?decide_False by exact Hne. exact IH.
Qed.

End Interleaved.

(** X21: the requests of the other keys are invisible to a key.  In any
    sequence of requests whose times never go back, the responses to the
    requests of one key are the responses that key would get if it were
    the only one to make requests, at the same times, on the same
    store. *)
Theorem X21_other_keys_invisible config key start calls store :
  nondecreasing start calls ->
  answers_to key calls (requests config calls store).1
  = (checks config key (times_of key calls) store).1.
Proof.
  intros Hmono.
  apply (answers_alike config key calls start store store); [|exact Hmono].
  intros now _. reflexivity.
Qed.

Lemma X21_other_keys_invisible_witness :
  let config := {| limit := 2; windowSec := 60 |} in
  let calls :=
    [("a", 0); ("b", 5); ("a", 10); ("b", 10); ("b", 20); ("a", 30);
     ("b", 70000); ("a", 70000)] in
  answers_to "a" calls (requests config calls ∅).1
  = (checks config "a" [0; 10; 30; 70000] ∅).1.
Proof.
  intros config calls.
  apply (X21_other_keys_invisible config "a" 0 calls ∅).
  simpl. lia.
Defined.
